(** * The casino promotion core: a shallow embedding of [casino_system.py]

    The program replays a list of text commands against an in-memory ledger.
    Its whole state is the [CasinoSystem] dataclass; every handler mutates
    that object and may raise.  A raised exception is never caught, and
    Python does not roll anything back, so the embedding threads the state
    through an error monad in which the state survives a failure:
    a computation maps a state to a result (an exception or a value)
    together with the state reached at that point.

    Conventions.
    - Python [int] is unbounded: [Z].
    - Python [str] is a Rocq [string]; a character is read as the code
      point of the same number (0..255).  Text outside that range is not
      modelled.
    - [dict] is a [gmap]; [deque] and [list] are [list].  The only list the
      program mutates in place is the scenario it has just popped, which no
      other name refers to, so values stand for objects.
    - [int()] and [str()] are modelled without the interpreter's cap on the
      number of digits of a converted integer. *)

From Stdlib Require Import Ascii String.
From stdpp Require Import gmap strings list fin_maps pretty.

Local Open Scope Z_scope.

(** ** The fragments of Python's [str] the program uses *)

Module Py.

(** [str.isspace] on one character, for code points below 256: TAB, LF,
    VT, FF, CR, the four separators FS GS RS US, SPACE, NEL, NBSP. *)
Definition isspace (c : ascii) : bool :=
  let n := N_of_ascii c in
  ((9 <=? n) && (n <=? 13) || (28 <=? n) && (n <=? 32)
   || (n =? 133) || (n =? 160))%N.

Definition isdigit (c : ascii) : bool :=
  let n := N_of_ascii c in ((48 <=? n) && (n <=? 57))%N.

Definition digit_value (c : ascii) : Z := Z.of_N (N_of_ascii c) - 48.

Fixpoint lstrip_chars (l : list ascii) : list ascii :=
  match l with
  | c :: l' => if isspace c then lstrip_chars l' else l
  | [] => []
  end.

Definition strip_chars (l : list ascii) : list ascii :=
  reverse (lstrip_chars (reverse (lstrip_chars l))).

(** [s.strip()] *)
Definition strip (s : string) : string :=
  string_of_list_ascii (strip_chars (list_ascii_of_string s)).

(** [s.split()] with no separator: maximal runs of non-space characters.
    [cur] is the token being read, in reverse. *)
Fixpoint split_chars (cur : list ascii) (l : list ascii) : list string :=
  match l with
  | [] =>
      match cur with
      | [] => []
      | _ => [string_of_list_ascii (reverse cur)]
      end
  | c :: l' =>
      if isspace c then
        match cur with
        | [] => split_chars [] l'
        | _ => string_of_list_ascii (reverse cur) :: split_chars [] l'
        end
      else split_chars (c :: cur) l'
  end.

Definition split (s : string) : list string :=
  split_chars [] (list_ascii_of_string s).

(** [s.startswith(p)] *)
Definition startswith (s p : string) : bool := String.prefix p s.

(** The digits of an [int()] literal: one or more digits, single
    underscores allowed between two digits only. *)
Fixpoint int_digits (acc : Z) (after_digit : bool) (l : list ascii)
  : option Z :=
  match l with
  | [] => if after_digit then Some acc else None
  | c :: l' =>
      if isdigit c then int_digits (10 * acc + digit_value c) true l'
      else if Ascii.eqb c "_"%char then
        (if after_digit then int_digits acc false l' else None)
      else None
  end.

(** The whitespace [int()] skips around a literal.  It is not that of
    [str.isspace]: the conversion skips the whitespace of C (TAB, LF, VT,
    FF, CR, SPACE), and NEL and NBSP, which it first turns into spaces;
    the separators FS GS RS US are left in place and make the literal
    invalid. *)
Definition int_isspace (c : ascii) : bool :=
  let n := N_of_ascii c in
  ((9 <=? n) && (n <=? 13) || (n =? 32) || (n =? 133) || (n =? 160))%N.

Fixpoint int_lstrip_chars (l : list ascii) : list ascii :=
  match l with
  | c :: l' => if int_isspace c then int_lstrip_chars l' else l
  | [] => []
  end.

Definition int_strip_chars (l : list ascii) : list ascii :=
  reverse (int_lstrip_chars (reverse (int_lstrip_chars l))).

(** [int(s)] in base 10; [None] stands for the [ValueError]. *)
Definition int (s : string) : option Z :=
  match int_strip_chars (list_ascii_of_string s) with
  | c :: l =>
      if Ascii.eqb c "-"%char then Z.opp <$> int_digits 0 false l
      else if Ascii.eqb c "+"%char then int_digits 0 false l
      else int_digits 0 false (c :: l)
  | [] => None
  end.

(** [str(n)] for an integer. *)
Definition str (n : Z) : string := pretty n.

(** [l[i]] for [i >= 0]; [None] stands for the [IndexError]. *)
Definition index {A} (l : list A) (i : nat) : option A := l !! i.

(** [l[-1]]; [None] stands for the [IndexError]. *)
Definition index_last {A} (l : list A) : option A := last l.

(** [l[:-1]], a new list. *)
Definition slice_init {A} (l : list A) : list A := removelast l.

End Py.

(** ** The state *)

(** The three game types (module constants of the source). *)
Definition SLOT : string := "SLOT".
Definition CASINO : string := "CASINO".
Definition SPORT : string := "SPORT".

(** The fields of the dataclass that the processing touches.  The two path
    fields [input_file] and [output_file] only name the files; the file
    contents are passed to and returned by [make_transactions] below. *)
Record CasinoSystem : Type := mkCasinoSystem {
  balances : gmap string Z;
  outputs : list string;
  win : bool;
  unused_scenarios : list (list string);
  deposits : gmap string Z;
  slot_bets : gmap string Z;
  user_campaigns : gmap string (list string)
}.

(** [CasinoSystem()] with the field defaults. *)
Definition initial : CasinoSystem :=
  {| balances := ∅; outputs := []; win := true; unused_scenarios := [];
     deposits := ∅; slot_bets := ∅; user_campaigns := ∅ |}.

Definition set_balances (f : gmap string Z → gmap string Z)
    (s : CasinoSystem) : CasinoSystem :=
  {| balances := f (balances s); outputs := outputs s; win := win s;
     unused_scenarios := unused_scenarios s; deposits := deposits s;
     slot_bets := slot_bets s; user_campaigns := user_campaigns s |}.

Definition set_outputs (f : list string → list string)
    (s : CasinoSystem) : CasinoSystem :=
  {| balances := balances s; outputs := f (outputs s); win := win s;
     unused_scenarios := unused_scenarios s; deposits := deposits s;
     slot_bets := slot_bets s; user_campaigns := user_campaigns s |}.

Definition set_win (f : bool → bool) (s : CasinoSystem) : CasinoSystem :=
  {| balances := balances s; outputs := outputs s; win := f (win s);
     unused_scenarios := unused_scenarios s; deposits := deposits s;
     slot_bets := slot_bets s; user_campaigns := user_campaigns s |}.

Definition set_unused_scenarios
    (f : list (list string) → list (list string))
    (s : CasinoSystem) : CasinoSystem :=
  {| balances := balances s; outputs := outputs s; win := win s;
     unused_scenarios := f (unused_scenarios s); deposits := deposits s;
     slot_bets := slot_bets s; user_campaigns := user_campaigns s |}.

Definition set_deposits (f : gmap string Z → gmap string Z)
    (s : CasinoSystem) : CasinoSystem :=
  {| balances := balances s; outputs := outputs s; win := win s;
     unused_scenarios := unused_scenarios s; deposits := f (deposits s);
     slot_bets := slot_bets s; user_campaigns := user_campaigns s |}.

Definition set_slot_bets (f : gmap string Z → gmap string Z)
    (s : CasinoSystem) : CasinoSystem :=
  {| balances := balances s; outputs := outputs s; win := win s;
     unused_scenarios := unused_scenarios s; deposits := deposits s;
     slot_bets := f (slot_bets s); user_campaigns := user_campaigns s |}.

Definition set_user_campaigns
    (f : gmap string (list string) → gmap string (list string))
    (s : CasinoSystem) : CasinoSystem :=
  {| balances := balances s; outputs := outputs s; win := win s;
     unused_scenarios := unused_scenarios s; deposits := deposits s;
     slot_bets := slot_bets s; user_campaigns := f (user_campaigns s) |}.

(** ** Exceptions *)

(** Every [raise] of the source and every built-in operation that can
    raise, one constructor per kind and raise site.  [AmountLiteral] and
    [PrizeLiteral] are both the [ValueError] of [int()]; they are kept
    apart by where [int()] is called (on a command's amount, lines 75 and
    92, or on a stored prize, lines 130, 134 and 138). *)
Inductive exn : Type :=
  | RegistrationArity            (* ValueError, line 52 *)
  | UserExists (user_id : string) (* ValueError, line 56 *)
  | ScenarioArity                (* ValueError, line 63 *)
  | DepositArity                 (* ValueError, line 72 *)
  | DepositNotPositive           (* ValueError, line 77 *)
  | BetArity                     (* ValueError, line 89 *)
  | BetNotPositive               (* ValueError, line 94 *)
  | InvalidGame (game : string)  (* ValueError, line 100 *)
  | BalanceArity                 (* ValueError, line 113 *)
  | NotRegistered (user_id : string) (* ValueError, lines 80, 97, 117 *)
  | AmountLiteral (text : string) (* ValueError of int(), lines 75, 92 *)
  | PrizeLiteral (text : string) (* ValueError of int(), lines 130-138 *)
  | EmptyDeque                   (* IndexError of popleft(), line 127 *)
  | IndexError                   (* IndexError of a list subscript *)
  | KeyError (key : string).     (* KeyError of a dict subscript *)

(** ** The monad: state that survives an exception *)

(** A computation: from the state to its result and the state it leaves.
    On [inl e] the state is the one at the [raise]. *)
Definition M (A : Type) : Type := CasinoSystem → (exn + A) * CasinoSystem.

(** Return a value. *)
Definition ret {A} (a : A) : M A := λ s, (inr a, s).

(** [raise e] *)
Definition raise {A} (e : exn) : M A := λ s, (inl e, s).

(** Sequencing: an exception ends the computation where it is raised. *)
Definition bind {A B} (c : M A) (k : A → M B) : M B :=
  λ s, match c s with
       | (inr a, s') => k a s'
       | (inl e, s') => (inl e, s')
       end.

(** Read a field of [self]. *)
Definition gets {A} (f : CasinoSystem → A) : M A := λ s, (inr (f s), s).

(** Write to [self]. *)
Definition modify (f : CasinoSystem → CasinoSystem) : M unit :=
  λ s, (inr tt, f s).

Declare Scope casino_scope.
Delimit Scope casino_scope with casino.
Notation "x <- c ;; k" := (bind c (λ x, k))
  (at level 100, c at next level, right associativity) : casino_scope.
Notation "c ;; k" := (bind c (λ _, k))
  (at level 100, right associativity) : casino_scope.
Local Open Scope casino_scope.

(** [d[k]] on a dict: the value, or [KeyError]. *)
Definition subscript {V} (d : gmap string V) (k : string) : M V :=
  match d !! k with
  | Some v => ret v
  | None => raise (KeyError k)
  end.

(** [l[i]], [l[-1]] on a list: the element, or [IndexError]. *)
Definition item {A} (o : option A) : M A :=
  match o with
  | Some a => ret a
  | None => raise IndexError
  end.

(** [k in d] *)
Definition contains {V} (d : gmap string V) (k : string) : bool :=
  bool_decide (is_Some (d !! k)).

(** [int(text)] at a raise site. *)
Definition int_or {A} (text : string) (e : string → exn) (k : Z → M A)
    : M A :=
  match Py.int text with
  | Some n => k n
  | None => raise (e text)
  end.

(** [self.field[key]] read from the current state. *)
Definition self_subscript {V} (field : CasinoSystem → gmap string V)
    (key : string) : M V :=
  d <- gets field ;; subscript d key.

(** [a and b], where [b] is evaluated only when [a] is true. *)
Definition and_ (a b : M bool) : M bool :=
  x <- a ;; if x then b else ret false.

(** [self.field[key] >= bound] *)
Definition at_least (field : CasinoSystem → gmap string Z) (key : string)
    (bound : Z) : M bool :=
  v <- self_subscript field key ;; ret (bound <=? v).

(** [self.unused_scenarios.popleft()] *)
Definition popleft : M (list string) :=
  λ s, match unused_scenarios s with
       | [] => (inl EmptyDeque, s)
       | scenario :: rest =>
           (inr scenario, set_unused_scenarios (λ _, rest) s)
       end.

(** ** The handlers *)

(** [self.balances[user_id] += int(text)], in Python's order: the old
    balance is read first, then the prize is converted. *)
Definition pay_prize (user_id : string) (text : option string) : M unit :=
  old <- self_subscript balances user_id ;;
  prize <- item text ;;
  int_or prize PrizeLiteral (λ n,
    modify (set_balances (<[user_id := old + n]>))).

(** Lines 121-140. *)
Definition check_campaign_status (user_id : string) : M unit :=
  deps <- gets deposits ;;
  slots <- gets slot_bets ;;
  if negb (contains deps user_id) || negb (contains slots user_id) then
    ret tt
  else
    camps <- gets user_campaigns ;;
    if negb (contains camps user_id) then
      eligible <- and_ (at_least deposits user_id 100)
                       (at_least slot_bets user_id 50) ;;
      if eligible then
        available_campaign <- popleft ;;
        (* [append] mutates the popped list, which nothing else holds *)
        let available_campaign := available_campaign ++ ["1"] in
        modify (set_user_campaigns (<[user_id := available_campaign]>)) ;;
        pay_prize user_id (Py.index available_campaign 0)
      else ret tt
    else
      campaign <- self_subscript user_campaigns user_id ;;
      tier3 <- and_ (at_least deposits user_id 1000)
                 (and_ (at_least slot_bets user_id 500)
                    (marker <- item (Py.index_last campaign) ;;
                     ret (String.eqb marker "2"))) ;;
      if tier3 then
        pay_prize user_id (Py.index campaign 2) ;;
        (* [campaign[:-1]] is a fresh list; the append goes to that copy,
           which is dropped, and [campaign] itself is stored back *)
        let _copy := Py.slice_init campaign ++ ["3"] in
        modify (set_user_campaigns (<[user_id := campaign]>))
      else
        tier2 <- and_ (at_least deposits user_id 500)
                   (and_ (at_least slot_bets user_id 250)
                      (marker <- item (Py.index_last campaign) ;;
                       ret (String.eqb marker "1"))) ;;
        if tier2 then
          pay_prize user_id (Py.index campaign 1) ;;
          let _copy := Py.slice_init campaign ++ ["2"] in
          modify (set_user_campaigns (<[user_id := campaign]>))
        else ret tt.

(** Lines 49-58. *)
Definition make_registration (transaction : string) : M unit :=
  match Py.split transaction with
  | [_; user_id] =>
      registered <- gets balances ;;
      if contains registered user_id then raise (UserExists user_id)
      else modify (set_balances (<[user_id := 0]>))
  | _ => raise RegistrationArity
  end.

(** Lines 60-67. *)
Definition add_scenario (transaction : string) : M unit :=
  match Py.split transaction with
  | [_; prize1; prize2; prize3] =>
      modify (set_unused_scenarios (λ q, q ++ [[prize1; prize2; prize3]]))
  | _ => raise ScenarioArity
  end.

(** Lines 69-84. *)
Definition make_deposit (transaction : string) : M unit :=
  match Py.split transaction with
  | [_; user_id; amount] =>
      int_or amount AmountLiteral (λ amount,
        if amount <=? 0 then raise DepositNotPositive
        else
          registered <- gets balances ;;
          if negb (contains registered user_id) then
            raise (NotRegistered user_id)
          else
            old <- self_subscript balances user_id ;;
            modify (set_balances (<[user_id := old + amount]>)) ;;
            deps <- gets deposits ;;
            modify (set_deposits
                      (<[user_id := default 0 (deps !! user_id) + amount]>)) ;;
            check_campaign_status user_id)
  | _ => raise DepositArity
  end.

(** Lines 86-108. *)
Definition make_bet (transaction : string) : M unit :=
  match Py.split transaction with
  | [_; user_id; game; amount] =>
      int_or amount AmountLiteral (λ amount,
        if amount <=? 0 then raise BetNotPositive
        else
          registered <- gets balances ;;
          if negb (contains registered user_id) then
            raise (NotRegistered user_id)
          else if negb (bool_decide (game ∈ [SLOT; CASINO; SPORT])) then
            raise (InvalidGame game)
          else
            balance <- self_subscript balances user_id ;;
            (if amount <=? balance then
               old <- self_subscript balances user_id ;;
               w <- gets win ;;
               modify (set_balances
                         (<[user_id := old + (if w then amount else - amount)]>)) ;;
               modify (set_win negb)
             else ret tt) ;;
            if String.eqb game SLOT then
              slots <- gets slot_bets ;;
              modify (set_slot_bets
                        (<[user_id := default 0 (slots !! user_id) + amount]>)) ;;
              check_campaign_status user_id
            else ret tt)
  | _ => raise BetArity
  end.

(** Lines 110-119. *)
Definition get_balance (transaction : string) : M unit :=
  match Py.split transaction with
  | [_; user_id] =>
      registered <- gets balances ;;
      if negb (contains registered user_id) then
        raise (NotRegistered user_id)
      else
        balance <- self_subscript balances user_id ;;
        modify (set_outputs (λ o, o ++ [Py.str balance]))
  | _ => raise BalanceArity
  end.

(** ** The run *)

(** The body of the loop of [make_transactions] (lines 37-46): the first
    keyword the line starts with selects the handler. *)
Definition dispatch (transaction : string) : M unit :=
  if Py.startswith transaction "register" then make_registration transaction
  else if Py.startswith transaction "addscenario" then add_scenario transaction
  else if Py.startswith transaction "deposit" then make_deposit transaction
  else if Py.startswith transaction "bet" then make_bet transaction
  else if Py.startswith transaction "balance" then get_balance transaction
  else ret tt.

(** [get_file_content]: the lines of the input file, each stripped. *)
Definition get_file_content (file : list string) : list string :=
  Py.strip <$> file.

(** The loop (line 36): it ends at the first exception. *)
Fixpoint process (transactions : list string) : M unit :=
  match transactions with
  | [] => ret tt
  | transaction :: rest => dispatch transaction ;; process rest
  end.

(** The line feed, ['\n']. *)
Definition newline : string := String (ascii_of_nat 10) EmptyString.

(** [save_outputs]: what is written to the output file. *)
Definition save_outputs : M (list string) :=
  out <- gets outputs ;; ret ((λ line, line +:+ newline) <$> out).

(** [make_transactions] on the lines of the input file; the value is the
    content of the output file. *)
Definition make_transactions (file : list string) : M (list string) :=
  process (get_file_content file) ;; save_outputs.

(** The state a computation ends in, whether it returns or raises. *)
Definition state_after {A} (c : M A) (s : CasinoSystem) : CasinoSystem :=
  (c s).2.

(** The result of a computation: the exception raised, or the value. *)
Definition result_of {A} (c : M A) (s : CasinoSystem) : exn + A := (c s).1.

(** ** Vocabulary of the statements *)

(** The five keywords of the dispatcher. *)
Definition keywords : list string :=
  ["register"; "addscenario"; "deposit"; "bet"; "balance"].

(** The format and validation errors of the handlers: wrong token count,
    unparseable or non-positive amount, duplicate registration,
    unregistered user, invalid game type. *)
Definition validation_error (e : exn) : bool :=
  match e with
  | RegistrationArity | UserExists _ | ScenarioArity | DepositArity
  | DepositNotPositive | BetArity | BetNotPositive | InvalidGame _
  | BalanceArity | NotRegistered _ | AmountLiteral _ => true
  | PrizeLiteral _ | EmptyDeque | IndexError | KeyError _ => false
  end.

(** The tier marker of a campaign is its last element, [campaign[-1]]. *)
Definition tier_marker (campaign : list string) : option string :=
  Py.index_last campaign.

(** The scenario of a campaign is what precedes the marker,
    [campaign[:-1]]. *)
Definition scenario_of (campaign : list string) : list string :=
  Py.slice_init campaign.

(** What a tier step does: it pays the prize at position [i] and stores
    the campaign back as it was. *)
Definition paid (user_id : string) (s : CasinoSystem) (i : nat)
    (campaign : list string) (old : Z) : (exn + unit) * CasinoSystem :=
  match campaign !! i with
  | None => (inl IndexError, s)
  | Some prize =>
      match Py.int prize with
      | None => (inl (PrizeLiteral prize), s)
      | Some n =>
          (inr tt,
           set_user_campaigns (<[user_id := campaign]>)
             (set_balances (<[user_id := old + n]>) s))
      end
  end.

(** Whether a line starts with one of the keywords. *)
Definition starts_with_keyword (t : string) : bool :=
  existsb (Py.startswith t) keywords.

(** A computation fails cleanly when each format or validation error it
    raises leaves the state as it found it. *)
Definition fails_cleanly (c : M unit) : Prop :=
  ∀ s, match c s with
       | (inl e, s') => validation_error e = true → s' = s
       | (inr _, _) => True
       end.

(** The bet a line places in a state, when the bet handler accepts it:
    the line goes to the bet handler, has four tokens, a positive integer
    amount, a registered user and a valid game.  The value is the stake
    and the user's balance. *)
Definition accepted_bet (t : string) (s : CasinoSystem) : option (Z * Z) :=
  if Py.startswith t "bet" then
    match Py.split t with
    | [_; user_id; game; amount] =>
        match Py.int amount, balances s !! user_id with
        | Some n, Some balance =>
            if (0 <? n) && bool_decide (game ∈ [SLOT; CASINO; SPORT])
            then Some (n, balance) else None
        | _, _ => None
        end
    | _ => None
    end
  else None.

(** The bet is coverable: the stake does not exceed the balance. *)
Definition coverable_bet (t : string) (s : CasinoSystem) : bool :=
  match accepted_bet t s with
  | Some (n, balance) => n <=? balance
  | None => false
  end.

(** What one step may do to the queue and the campaigns: either it leaves
    the campaigns alone and at most appends scenarios at the back of the
    queue, or it gives the scenario at the front of the queue, marked 1, to
    one user who had no campaign, and the queue keeps the rest. *)
Definition fifo_step (s s' : CasinoSystem) : Prop :=
  (user_campaigns s' = user_campaigns s
   ∧ ∃ loaded, unused_scenarios s' = unused_scenarios s ++ loaded)
  ∨ (∃ user_id scenario,
       user_campaigns s !! user_id = None
       ∧ unused_scenarios s = scenario :: unused_scenarios s'
       ∧ user_campaigns s' = <[user_id := scenario ++ ["1"]]> (user_campaigns s)).

(** Everything the evaluator can do in one call.  Either it assigns
    nothing: queue and campaigns are as before, and the balances are as
    before or the user's balance has grown by prize2 or prize3 of the
    campaign held.  Or it assigns the front of the queue to the user, and
    the balances are as before or the user's balance has grown by the
    first element of the new campaign. *)
Definition evaluator_outcome (user_id : string) (s s' : CasinoSystem)
    : Prop :=
  (unused_scenarios s' = unused_scenarios s
   ∧ user_campaigns s' = user_campaigns s
   ∧ (balances s' = balances s
      ∨ ∃ campaign i prize n old,
          user_campaigns s !! user_id = Some campaign
          ∧ campaign !! i = Some prize ∧ (i = 1 ∨ i = 2)%nat
          ∧ Py.int prize = Some n
          ∧ balances s !! user_id = Some old
          ∧ balances s' = <[user_id := old + n]> (balances s)))
  ∨ (∃ scenario,
       unused_scenarios s = scenario :: unused_scenarios s'
       ∧ user_campaigns s !! user_id = None
       ∧ user_campaigns s' = <[user_id := scenario ++ ["1"]]> (user_campaigns s)
       ∧ (balances s' = balances s
          ∨ ∃ prize n old,
              (scenario ++ ["1"]) !! 0%nat = Some prize
              ∧ Py.int prize = Some n
              ∧ balances s !! user_id = Some old
              ∧ balances s' = <[user_id := old + n]> (balances s))).

(** A prize that converts to a non-negative integer. *)
Definition nonneg_prize (prize : string) : bool :=
  match Py.int prize with
  | Some n => 0 <=? n
  | None => false
  end.

(** The scenario a line loads: the line goes to [add_scenario] and has
    four tokens. *)
Definition loaded_scenario (t : string) : option (list string) :=
  if Py.startswith t "addscenario" then
    match Py.split t with
    | [_; prize1; prize2; prize3] => Some [prize1; prize2; prize3]
    | _ => None
    end
  else None.

(** Every scenario the file loads has non-negative integer prizes. *)
Definition scenario_line_ok (t : string) : bool :=
  match loaded_scenario t with
  | Some scenario => forallb nonneg_prize scenario
  | None => true
  end.

(** The same for a run: the lines checked are the lines the run reaches,
    up to and including the line that raises, if one does. *)
Fixpoint loads_nonneg (transactions : list string) (s : CasinoSystem)
    : bool :=
  match transactions with
  | [] => true
  | t :: rest =>
      scenario_line_ok t
      && match dispatch t s with
         | (inr _, s') => loads_nonneg rest s'
         | (inl _, _) => true
         end
  end.

(** A scenario of three prizes, each a non-negative integer. *)
Definition good_scenario (scenario : list string) : Prop :=
  ∃ prize1 prize2 prize3,
    scenario = [prize1; prize2; prize3]
    ∧ nonneg_prize prize1 = true ∧ nonneg_prize prize2 = true
    ∧ nonneg_prize prize3 = true.

(** The invariant: balances are non-negative, and every scenario, queued
    or assigned under a marker, is three non-negative prizes. *)
Definition ledger_ok (s : CasinoSystem) : Prop :=
  map_Forall (λ _ balance, 0 ≤ balance) (balances s)
  ∧ Forall good_scenario (unused_scenarios s)
  ∧ map_Forall (λ _ campaign,
                  ∃ scenario marker,
                    good_scenario scenario ∧ campaign = scenario ++ [marker])
      (user_campaigns s).

(** Every campaign of the state is marked 1. *)
Definition tier1_only (s : CasinoSystem) : Prop :=
  map_Forall (λ _ campaign, tier_marker campaign = Some "1")
    (user_campaigns s).

(** The assignment a line makes in a state: the user its second token
    names, when that user has no campaign before the line and has one after
    it, with the scenario of that campaign.  A list of none or one. *)
Definition assigned_by (t : string) (s : CasinoSystem)
    : list (string * list string) :=
  match Py.split t !! 1%nat with
  | Some user_id =>
      match user_campaigns s !! user_id,
            user_campaigns (state_after (dispatch t) s) !! user_id with
      | None, Some campaign => [(user_id, scenario_of campaign)]
      | _, _ => []
      end
  | None => []
  end.

(** The assignments of a run, in the order of the lines that make them, up
    to and including the line that raises, if one does. *)
Fixpoint assigned_in (transactions : list string) (s : CasinoSystem)
    : list (string * list string) :=
  match transactions with
  | [] => []
  | t :: rest =>
      assigned_by t s
      ++ match dispatch t s with
         | (inr _, s') => assigned_in rest s'
         | (inl _, _) => []
         end
  end.

(** The scenarios a run loads, in the order of the [addscenario] lines
    that load them, up to the line that raises, if one does. *)
Fixpoint loaded_in (transactions : list string) (s : CasinoSystem)
    : list (list string) :=
  match transactions with
  | [] => []
  | t :: rest =>
      option_list (loaded_scenario t)
      ++ match dispatch t s with
         | (inr _, s') => loaded_in rest s'
         | (inl _, _) => []
         end
  end.

(** The campaigns after the assignments of a log, made in its order: each
    user of the log holds the scenario of the log followed by the
    marker 1. *)
Definition assign_all (log : list (string * list string))
    (campaigns : gmap string (list string)) : gmap string (list string) :=
  foldl (λ m '(user_id, scenario), <[user_id := scenario ++ ["1"]]> m)
    campaigns log.

(** ** Vocabulary of the further properties *)

(** The deposit a line makes in a state, when the deposit handler accepts
    it: the line goes to the deposit handler, has three tokens, a positive
    integer amount and a registered user.  The value is the user and the
    amount. *)
Definition accepted_deposit (t : string) (s : CasinoSystem)
    : option (string * Z) :=
  if Py.startswith t "deposit" then
    match Py.split t with
    | [_; user_id; amount] =>
        match Py.int amount with
        | Some n =>
            if (0 <? n) && contains (balances s) user_id
            then Some (user_id, n) else None
        | None => None
        end
    | _ => None
    end
  else None.

(** The SLOT stake a line places in a state, when the bet handler accepts
    the line and the game is SLOT.  The value is the user and the stake. *)
Definition accepted_slot_stake (t : string) (s : CasinoSystem)
    : option (string * Z) :=
  if Py.startswith t "bet" then
    match Py.split t with
    | [_; user_id; game; amount] =>
        match Py.int amount with
        | Some n =>
            if (0 <? n) && contains (balances s) user_id
               && String.eqb game SLOT
            then Some (user_id, n) else None
        | None => None
        end
    | _ => None
    end
  else None.

(** The balance a line queries in a state, when the query handler accepts
    it: the line starts with [balance], has two tokens and a registered
    user. *)
Definition answered_query (t : string) (s : CasinoSystem) : option Z :=
  if Py.startswith t "balance" then
    match Py.split t with
    | [_; user_id] => balances s !! user_id
    | _ => None
    end
  else None.

(** Whether the evaluator has nothing to do for a user: a total is
    missing, or the user has no campaign and is below 100 or 50, or the
    user has a campaign and is below 500 or 250. *)
Definition below_thresholds (user_id : string) (s : CasinoSystem) : bool :=
  match deposits s !! user_id, slot_bets s !! user_id with
  | Some d, Some sb =>
      if contains (user_campaigns s) user_id
      then (d <? 500) || (sb <? 250)
      else (d <? 100) || (sb <? 50)
  | _, _ => true
  end.

(** The shape of the states a run reaches.  Totals are positive and belong
    to registered users; a queued scenario is three tokens; a campaign is
    three tokens and the marker 1, and its holder has deposits of at least
    100 and SLOT wagers of at least 50. *)
Definition well_formed (s : CasinoSystem) : Prop :=
  (∀ user_id d, deposits s !! user_id = Some d →
     0 < d ∧ is_Some (balances s !! user_id))
  ∧ (∀ user_id sb, slot_bets s !! user_id = Some sb →
       0 < sb ∧ is_Some (balances s !! user_id))
  ∧ Forall (λ scenario, length scenario = 3%nat) (unused_scenarios s)
  ∧ (∀ user_id campaign, user_campaigns s !! user_id = Some campaign →
       (∃ prize1 prize2 prize3, campaign = [prize1; prize2; prize3; "1"])
       ∧ ∃ d sb, deposits s !! user_id = Some d ∧ 100 ≤ d
                 ∧ slot_bets s !! user_id = Some sb ∧ 50 ≤ sb).

(** Not the failure of a dict or list subscript. *)
Definition run_error (e : exn) : bool :=
  match e with
  | KeyError _ | IndexError => false
  | _ => true
  end.

(** The handler of a keyword. *)
Definition handler_of (keyword : string) : option (string → M unit) :=
  if String.eqb keyword "register" then Some make_registration
  else if String.eqb keyword "addscenario" then Some add_scenario
  else if String.eqb keyword "deposit" then Some make_deposit
  else if String.eqb keyword "bet" then Some make_bet
  else if String.eqb keyword "balance" then Some get_balance
  else None.

(** ** The inputs of the examples *)

(** The example run of the specification. *)
Definition example_run : list string :=
  ["register u1"; "addscenario 10 20 30"; "deposit u1 100";
   "bet u1 SLOT 50"; "balance u1"].

(** The state in which the evaluator runs after [register u1],
    [deposit u1 100] and the stake of [bet u1 SLOT 50], with no scenario
    loaded. *)
Definition no_scenario_state : CasinoSystem :=
  {| balances := {["u1" := 150]}; outputs := []; win := false;
     unused_scenarios := []; deposits := {["u1" := 100]};
     slot_bets := {["u1" := 50]}; user_campaigns := ∅ |}.

(** The run in which a user holds a tier-1 campaign and meets the tier-2
    thresholds (deposits 500, SLOT wagers 250). *)
Definition tier1_run : list string :=
  ["register u1"; "addscenario 10 20 30"; "deposit u1 500";
   "bet u1 SLOT 250"].

(** The state [tier1_run] ends in. *)
Definition tier1_state : CasinoSystem :=
  {| balances := {["u1" := 760]}; outputs := []; win := false;
     unused_scenarios := []; deposits := {["u1" := 500]};
     slot_bets := {["u1" := 250]};
     user_campaigns := {["u1" := ["10"; "20"; "30"; "1"]]} |}.

(** A state whose user holds a campaign marked 2 and meets the tier-3
    thresholds (deposits 1000, SLOT wagers 500). *)
Definition tier2_state : CasinoSystem :=
  {| balances := {["u1" := 0]}; outputs := []; win := true;
     unused_scenarios := []; deposits := {["u1" := 1000]};
     slot_bets := {["u1" := 500]};
     user_campaigns := {["u1" := ["10"; "20"; "30"; "2"]]} |}.

(** A run whose user meets the tier-3 thresholds (deposits 1000, SLOT
    wagers 500) when the scenario is assigned, followed by two more
    evaluations. *)
Definition tier3_run : list string :=
  ["register u1"; "addscenario 10 20 30"; "deposit u1 1000";
   "bet u1 SLOT 500"; "deposit u1 1"; "deposit u1 1"; "balance u1"].

(** Two users served by one run, in the order they became eligible. *)
Definition two_users_run : list string :=
  ["addscenario 10 20 30"; "register a"; "register b";
   "addscenario 1 2 3"; "deposit b 100"; "deposit a 100";
   "bet b SLOT 50"; "addscenario 7 8 9"; "bet a SLOT 50"].

(** A run with a lost bet: the second bet of [a], 200 on SLOT, takes the
    whole balance, and prize1 = 5 is then paid. *)
Definition lost_bet_run : list string :=
  ["register a"; "addscenario 5 0 +7"; "deposit a 100"; "bet a SPORT 100";
   "bet a SLOT 200"; "balance a"; "bet a CASINO 1000"; "balance a"].

(** * Properties *)

(** ** Unfolding the monad *)

Ltac unfold_monad :=
  unfold pay_prize, and_, at_least, self_subscript, subscript, item, int_or,
    popleft, bind, ret, raise, gets, modify, contains,
    state_after, result_of in *;
  unfold Py.index, Py.index_last, Py.slice_init in *.

(** Rewrite with the lookups and conversions the context knows. *)
Ltac use_lookups :=
  repeat match goal with
    | H : ?m !! ?k = _ |- context [?m !! ?k] => rewrite H
    | H : last ?c = _ |- context [last ?c] => rewrite H
    | H : Py.int ?c = _ |- context [Py.int ?c] => rewrite H
    | H : Py.split ?c = _ |- context [Py.split ?c] => rewrite H
    | H : Py.startswith ?c ?k = _ |- context [Py.startswith ?c ?k] =>
        rewrite H
    end.

Ltac simp_monad := repeat (progress (simpl; use_lookups)).

(** Split on the next test, lookup or list the computation inspects. *)
Ltac case_step :=
  match goal with
  | |- context [bool_decide (is_Some (?m !! ?k))] => destruct (m !! k) eqn:?
  | |- context [if ?b then _ else _] => destruct b eqn:?
  | |- context [match ?o with Some _ => _ | None => _ end] =>
      destruct o eqn:?
  | |- context [match ?l with [] => _ | _ :: _ => _ end] =>
      destruct l eqn:?
  end.

Ltac run_monad :=
  unfold_monad;
  repeat (simp_monad; try case_step; simplify_eq/=);
  try done; try lia.

(** ** The example run of the specification *)

(** C4.  The example run succeeds and writes exactly the line [160].  After
    the deposit the balance is 100 with the flag still at win; the final
    state is the one the specification walks through: balance 160
    (100 + 50 won + 10 of prize1), the flag at loss, totals 100 and 50, the
    queue empty, the first scenario assigned at tier 1. *)
Theorem example_run_outputs_160 :
  process (get_file_content (take 3 example_run)) initial =
    (inr tt,
     {| balances := {["u1" := 100]}; outputs := []; win := true;
        unused_scenarios := [["10"; "20"; "30"]];
        deposits := {["u1" := 100]}; slot_bets := ∅;
        user_campaigns := ∅ |})
  ∧ make_transactions example_run initial =
    (inr ["160" +:+ newline],
     {| balances := {["u1" := 160]}; outputs := ["160"]; win := false;
        unused_scenarios := []; deposits := {["u1" := 100]};
        slot_bets := {["u1" := 50]};
        user_campaigns := {["u1" := ["10"; "20"; "30"; "1"]]} |}).
Proof. split; vm_compute; reflexivity. Qed.

(** ** The campaign evaluator *)

(** Without both totals the evaluator does nothing. *)
Lemma check_campaign_status_no_totals (user_id : string) (s : CasinoSystem) :
  deposits s !! user_id = None ∨ slot_bets s !! user_id = None →
  check_campaign_status user_id s = (inr tt, s).
Proof.
  intros [H|H]; unfold check_campaign_status; run_monad.
Qed.

(** A holder of a campaign marked [1] who meets the tier-2 thresholds is
    paid prize2, and the campaign, marker included, stays as it was. *)
Lemma check_campaign_status_tier1 (user_id : string) (s : CasinoSystem)
    (campaign : list string) (d sb old : Z) :
  user_campaigns s !! user_id = Some campaign →
  tier_marker campaign = Some "1" →
  deposits s !! user_id = Some d → 500 ≤ d →
  slot_bets s !! user_id = Some sb → 250 ≤ sb →
  balances s !! user_id = Some old →
  check_campaign_status user_id s = paid user_id s 1 campaign old.
Proof.
  intros Hc Hm Hd Hd' Hs Hs' Hb. unfold tier_marker in Hm.
  unfold check_campaign_status, paid. run_monad.
Qed.

(** A holder of a campaign marked [2] who meets the tier-3 thresholds is
    paid prize3, and the campaign, marker included, stays as it was. *)
Lemma check_campaign_status_tier2 (user_id : string) (s : CasinoSystem)
    (campaign : list string) (d sb old : Z) :
  user_campaigns s !! user_id = Some campaign →
  tier_marker campaign = Some "2" →
  deposits s !! user_id = Some d → 1000 ≤ d →
  slot_bets s !! user_id = Some sb → 500 ≤ sb →
  balances s !! user_id = Some old →
  check_campaign_status user_id s = paid user_id s 2 campaign old.
Proof.
  intros Hc Hm Hd Hd' Hs Hs' Hb. unfold tier_marker in Hm.
  unfold check_campaign_status, paid. run_monad.
Qed.

(** The evaluator never changes an assigned campaign: the marker a tier
    step writes goes to a copy of the list. *)
Lemma check_campaign_status_keeps_campaign (user_id : string)
    (s : CasinoSystem) (campaign : list string) :
  user_campaigns s !! user_id = Some campaign →
  user_campaigns (state_after (check_campaign_status user_id) s)
    = user_campaigns s.
Proof.
  intros Hc. unfold check_campaign_status. run_monad;
    by rewrite insert_id.
Qed.

(** C5.  A user without a campaign whose totals reach 100 and 50 makes the
    evaluator pop the scenario queue; when the queue is empty the pop
    raises, so the invocation fails (with the state as it was) instead of
    doing nothing, and whatever was to follow the invocation is not run. *)
Theorem check_campaign_status_empty_queue (user_id : string)
    (s : CasinoSystem) (d sb : Z) :
  user_campaigns s !! user_id = None →
  deposits s !! user_id = Some d → 100 ≤ d →
  slot_bets s !! user_id = Some sb → 50 ≤ sb →
  unused_scenarios s = [] →
  check_campaign_status user_id s = (inl EmptyDeque, s)
  ∧ ∀ (B : Type) (rest : M B),
      (check_campaign_status user_id ;; rest) s = (inl EmptyDeque, s).
Proof.
  intros Hc Hd Hd' Hs Hs' Hq.
  assert (check_campaign_status user_id s = (inl EmptyDeque, s)) as H.
  { unfold check_campaign_status. run_monad. }
  split; [done|]. intros B rest. unfold bind. by rewrite H.
Qed.

Lemma check_campaign_status_empty_queue_witness :
  check_campaign_status "u1" no_scenario_state
    = (inl EmptyDeque, no_scenario_state)
  ∧ ∀ (B : Type) (rest : M B),
      (check_campaign_status "u1" ;; rest) no_scenario_state
        = (inl EmptyDeque, no_scenario_state).
Proof.
  apply (check_campaign_status_empty_queue "u1" no_scenario_state 100 50);
    first [reflexivity | lia].
Defined.

(** The same failure as a run: it ends at the bet, and nothing is written. *)
Example run_without_scenario_aborts :
  make_transactions
    ["register u1"; "deposit u1 100"; "bet u1 SLOT 50"; "balance u1"] initial
    = (inl EmptyDeque, no_scenario_state).
Proof. vm_compute. reflexivity. Qed.

(** ** The tier marker is never advanced *)

(** C1 (the code departs from it).  [tier1_run] ends in [tier1_state]:
    marker 1, deposits 500, SLOT wagers 250.  One invocation of the
    evaluator there pays prize2 = 20 but leaves the marker at 1, and the
    next invocation pays prize2 again; as a run, two further deposits of 1
    make the balance query record 802 instead of 782. *)
Theorem tier1_prize2_paid_twice :
  process tier1_run initial = (inr tt, tier1_state)
  ∧ check_campaign_status "u1" tier1_state
    = (inr tt, set_balances (<["u1" := 780]>) tier1_state)
  ∧ check_campaign_status "u1" (set_balances (<["u1" := 780]>) tier1_state)
    = (inr tt, set_balances (<["u1" := 800]>) tier1_state)
  ∧ tier_marker <$>
      user_campaigns (set_balances (<["u1" := 800]>) tier1_state) !! "u1"
    = Some (Some "1")
  ∧ result_of
      (make_transactions
         (tier1_run ++ ["deposit u1 1"; "deposit u1 1"; "balance u1"]))
      initial
    = inr ["802" +:+ newline].
Proof. repeat split; vm_compute; reflexivity. Qed.

(** C2 (the code departs from it).  In [tier2_state] one invocation of the
    evaluator pays prize3 = 30 but leaves the marker at 2, so the next
    invocation pays prize3 again instead of nothing.  In a run the marker 2
    is never stored in the first place: in [tier3_run] the user meets the
    tier-3 thresholds from the start, and the two evaluations after the
    assignment both pay prize2, so the query records 1552, not
    1562 = 1000 + 500 + 10 + 1 + 20 + 1 + 30. *)
Theorem tier2_prize3_paid_twice :
  check_campaign_status "u1" tier2_state
    = (inr tt, set_balances (<["u1" := 30]>) tier2_state)
  ∧ check_campaign_status "u1" (set_balances (<["u1" := 30]>) tier2_state)
    = (inr tt, set_balances (<["u1" := 60]>) tier2_state)
  ∧ tier_marker <$>
      user_campaigns (set_balances (<["u1" := 60]>) tier2_state) !! "u1"
    = Some (Some "2")
  ∧ result_of (make_transactions tier3_run) initial
    = inr ["1552" +:+ newline].
Proof. repeat split; vm_compute; reflexivity. Qed.

(** ** The dispatcher *)

(** A line that starts with a keyword starts with its first character. *)
Lemma startswith_first (t : string) (c : ascii) (k : string) :
  Py.startswith t (String c k) = true → ∃ t', t = String c t'.
Proof.
  unfold Py.startswith. destruct t as [|a t']; simpl; [done|].
  destruct (ascii_dec c a) as [->|]; [eauto | done].
Qed.

(** The keywords exclude one another, so the order of the tests of the
    dispatcher does not matter: a line goes to the handler of the keyword
    it starts with. *)
Lemma dispatch_register (t : string) :
  Py.startswith t "register" = true → dispatch t = make_registration t.
Proof. intros H. unfold dispatch. by rewrite H. Qed.

Lemma dispatch_addscenario (t : string) :
  Py.startswith t "addscenario" = true → dispatch t = add_scenario t.
Proof.
  intros H. destruct (startswith_first _ _ _ H) as [t' ->].
  unfold dispatch. by rewrite H.
Qed.

Lemma dispatch_deposit (t : string) :
  Py.startswith t "deposit" = true → dispatch t = make_deposit t.
Proof.
  intros H. destruct (startswith_first _ _ _ H) as [t' ->].
  unfold dispatch. by rewrite H.
Qed.

Lemma dispatch_bet (t : string) :
  Py.startswith t "bet" = true → dispatch t = make_bet t.
Proof.
  intros H. destruct (startswith_first _ _ _ H) as [t' ->].
  unfold dispatch. by rewrite H.
Qed.

Lemma dispatch_balance (t : string) :
  Py.startswith t "bet" = false →
  Py.startswith t "balance" = true → dispatch t = get_balance t.
Proof.
  intros Hb H. destruct (startswith_first _ _ _ H) as [t' ->].
  unfold dispatch. by rewrite Hb, H.
Qed.

Lemma dispatch_other (t : string) :
  starts_with_keyword t = false → dispatch t = ret tt.
Proof.
  unfold starts_with_keyword, keywords, dispatch. cbn [existsb]. intros H.
  repeat (apply orb_false_elim in H as [-> H]). done.
Qed.

(** The cases of the dispatcher. *)
Lemma dispatch_cases (t : string) :
  (Py.startswith t "register" = true ∧ dispatch t = make_registration t)
  ∨ (Py.startswith t "addscenario" = true ∧ dispatch t = add_scenario t)
  ∨ (Py.startswith t "deposit" = true ∧ dispatch t = make_deposit t)
  ∨ (Py.startswith t "bet" = true ∧ dispatch t = make_bet t)
  ∨ (Py.startswith t "bet" = false ∧ Py.startswith t "balance" = true
     ∧ dispatch t = get_balance t)
  ∨ (starts_with_keyword t = false ∧ dispatch t = ret tt).
Proof.
  destruct (Py.startswith t "register") eqn:H1;
    [left; by auto using dispatch_register|].
  destruct (Py.startswith t "addscenario") eqn:H2;
    [right; left; by auto using dispatch_addscenario|].
  destruct (Py.startswith t "deposit") eqn:H3;
    [do 2 right; left; by auto using dispatch_deposit|].
  destruct (Py.startswith t "bet") eqn:H4;
    [do 3 right; left; by auto using dispatch_bet|].
  destruct (Py.startswith t "balance") eqn:H5;
    [do 4 right; left; by auto using dispatch_balance|].
  do 5 right. assert (starts_with_keyword t = false) as H.
  { unfold starts_with_keyword, keywords. cbn [existsb].
    by rewrite H1, H2, H3, H4, H5. }
  auto using dispatch_other.
Qed.

(** C3, as stated, fails: the line [registerme u1] has the first token
    [registerme], which is not a keyword, yet it starts with [register] and
    registers [u1]; the line [betx] reaches the bet handler and raises. *)
Lemma first_token_not_keyword_dispatched :
  head (Py.split "registerme u1") = Some "registerme"
  ∧ ("registerme" ∉ keywords)
  ∧ dispatch (Py.strip "registerme u1") initial
    = (inr tt, set_balances (<["u1" := 0]>) initial)
  ∧ balances (set_balances (<["u1" := 0]>) initial) ≠ balances initial
  ∧ head (Py.split "betx") = Some "betx"
  ∧ ("betx" ∉ keywords)
  ∧ dispatch (Py.strip "betx") initial = (inl BetArity, initial).
Proof.
  split_and!; try (vm_compute; reflexivity).
  - apply (bool_decide_unpack _). vm_compute. exact I.
  - intros H. pose proof (f_equal (λ m : gmap string Z, m !! "u1") H) as Hl.
    vm_compute in Hl. done.
  - apply (bool_decide_unpack _). vm_compute. exact I.
Qed.

(** C3, amended.  A line that, once stripped, starts with none of the five
    keywords is skipped: the state is unchanged, so nothing is appended to
    the output log, and no exception is raised. *)
Theorem dispatch_skips_unprefixed_line (line : string) (s : CasinoSystem) :
  starts_with_keyword (Py.strip line) = false →
  dispatch (Py.strip line) s = (inr tt, s)
  ∧ process (get_file_content [line]) s = (inr tt, s).
Proof.
  intros H. simpl. unfold bind. by rewrite (dispatch_other _ H).
Qed.

Lemma dispatch_skips_unprefixed_line_witness :
  dispatch (Py.strip "  Bet u1 SLOT 5 ") tier1_state = (inr tt, tier1_state)
  ∧ process (get_file_content ["  Bet u1 SLOT 5 "]) tier1_state
    = (inr tt, tier1_state).
Proof.
  apply (dispatch_skips_unprefixed_line "  Bet u1 SLOT 5 " tier1_state).
  vm_compute. reflexivity.
Defined.

(** ** What the evaluator leaves alone *)

(** The evaluator writes balances, the queue and the campaigns only, and
    none of its failures is a format or validation error. *)
Lemma check_campaign_status_frame (user_id : string) (s : CasinoSystem) :
  match check_campaign_status user_id s with
  | (r, s') =>
      win s' = win s ∧ outputs s' = outputs s ∧ deposits s' = deposits s
      ∧ slot_bets s' = slot_bets s
      ∧ match r with inl e => validation_error e = false | inr _ => True end
  end.
Proof. unfold check_campaign_status. run_monad. Qed.

(** Split on the outcome of a call of the evaluator, keeping what the
    lemma [lem] says of it. *)
Ltac case_evaluator_using lem :=
  match goal with
  | |- context [check_campaign_status ?u ?s] =>
      let H := fresh "Heval" in
      pose proof (lem u s) as H; unfold state_after in H;
      destruct (check_campaign_status u s) as [[?|[]] ?]; simpl in H
  end.

Ltac run_handler_using lem :=
  unfold_monad;
  repeat (simp_monad; try first [case_step | case_evaluator_using lem];
          destruct_and?; simplify_eq/=);
  try done; try lia.

Ltac run_handler := run_handler_using check_campaign_status_frame.

(** ** Format and validation errors come before any write *)

Lemma make_registration_fails_cleanly t : fails_cleanly (make_registration t).
Proof. intros s. unfold make_registration. run_handler. Qed.

Lemma add_scenario_fails_cleanly t : fails_cleanly (add_scenario t).
Proof. intros s. unfold add_scenario. run_handler. Qed.

Lemma make_deposit_fails_cleanly t : fails_cleanly (make_deposit t).
Proof. intros s. unfold make_deposit. run_handler; congruence. Qed.

Lemma make_bet_fails_cleanly t : fails_cleanly (make_bet t).
Proof. intros s. unfold make_bet. run_handler; congruence. Qed.

Lemma get_balance_fails_cleanly t : fails_cleanly (get_balance t).
Proof. intros s. unfold get_balance. run_handler. Qed.

Lemma dispatch_fails_cleanly t : fails_cleanly (dispatch t).
Proof.
  destruct (dispatch_cases t)
    as [[_ ->]|[[_ ->]|[[_ ->]|[[_ ->]|[(_ & _ & ->)|[_ ->]]]]]];
    auto using make_registration_fails_cleanly, add_scenario_fails_cleanly,
      make_deposit_fails_cleanly, make_bet_fails_cleanly,
      get_balance_fails_cleanly.
  by intros s.
Qed.

(** C10.  When the handler of a command line raises a format or validation
    error (wrong token count, unparseable or non-positive amount, duplicate
    registration, unregistered user, invalid game type), the state is
    exactly the state before the line was dispatched. *)
Theorem validation_error_leaves_state (t : string) (s s' : CasinoSystem)
    (e : exn) :
  dispatch t s = (inl e, s') → validation_error e = true → s' = s.
Proof.
  intros Hd He. pose proof (dispatch_fails_cleanly t s) as H.
  rewrite Hd in H. auto.
Qed.

Lemma validation_error_leaves_state_witness :
  state_after (dispatch "bet u1 POKER 10") tier1_state = tier1_state.
Proof.
  apply (validation_error_leaves_state "bet u1 POKER 10" tier1_state _
           (InvalidGame "POKER")); vm_compute; reflexivity.
Defined.

(** Each of these errors is raised by some line, with the state kept. *)
Example validation_errors_raised :
  Forall (λ '(t, e), dispatch t tier1_state = (inl e, tier1_state))
    [("register", RegistrationArity);
     ("register u1", UserExists "u1");
     ("addscenario 1 2", ScenarioArity);
     ("deposit u1", DepositArity);
     ("deposit u1 ten", AmountLiteral "ten");
     ("deposit u1 0", DepositNotPositive);
     ("deposit u2 50", NotRegistered "u2");
     ("bet u1 SLOT", BetArity);
     ("bet u1 SLOT 1.5", AmountLiteral "1.5");
     ("bet u1 SLOT -5", BetNotPositive);
     ("bet u2 SLOT 5", NotRegistered "u2");
     ("bet u1 POKER 10", InvalidGame "POKER");
     ("balance", BalanceArity);
     ("balance u2", NotRegistered "u2")].
Proof. repeat constructor; vm_compute; reflexivity. Qed.

(** ** Bets *)

(** Close a goal on the flag from the equations in the context. *)
Ltac flag_eq :=
  repeat match goal with
    | H : win _ = _ |- _ => rewrite H in *; clear H
    end; done.

Lemma make_bet_win (t : string) (s : CasinoSystem) :
  Py.startswith t "bet" = true →
  win (state_after (make_bet t) s)
    = if coverable_bet t s then negb (win s) else win s.
Proof.
  intros Hb. unfold coverable_bet, accepted_bet, make_bet. rewrite Hb.
  destruct (Py.split t) as [|kw [|u [|g [|a [|]]]]]; try done.
  destruct (Py.int a) as [n|] eqn:Hi; [|by unfold_monad; simp_monad].
  destruct (balances s !! u) as [b|] eqn:Hu; [|by run_handler].
  destruct (0 <? n) eqn:Hn; [|by run_handler].
  destruct (bool_decide (g ∈ [SLOT; CASINO; SPORT])) eqn:Hg;
    [|by run_handler].
  simpl. destruct (n <=? b) eqn:Hc; run_handler; flag_eq.
Qed.

Lemma other_handlers_win (t : string) (s : CasinoSystem) :
  win (state_after (make_registration t) s) = win s
  ∧ win (state_after (add_scenario t) s) = win s
  ∧ win (state_after (make_deposit t) s) = win s
  ∧ win (state_after (get_balance t) s) = win s.
Proof.
  unfold make_registration, add_scenario, make_deposit, get_balance.
  split_and!; run_handler; flag_eq.
Qed.

(** C6.  The flag starts at win.  Processing a line toggles it exactly when
    the line is a bet the handler accepts and the stake does not exceed the
    user's balance; every other line (an uncoverable bet, a rejected bet,
    any other command, a skipped line) leaves it as it is. *)
Theorem flag_toggles_on_coverable_bets :
  win initial = true
  ∧ ∀ (t : string) (s : CasinoSystem),
      win (state_after (dispatch t) s)
        = if coverable_bet t s then negb (win s) else win s.
Proof.
  split; [done|]. intros t s.
  destruct (other_handlers_win t s) as (Hr & Ha & Hd & Hq).
  destruct (dispatch_cases t)
    as [[H ->]|[[H ->]|[[H ->]|[[H ->]|[(Hb & H & ->)|[H ->]]]]]];
    try (by apply make_bet_win).
  all: assert (Py.startswith t "bet" = false) as Hnb
    by (try done;
        try (destruct (startswith_first _ _ _ H) as [t' ->]; done);
        unfold starts_with_keyword, keywords in H; cbn [existsb] in H;
        repeat (apply orb_false_elim in H as [? H]); done).
  all: unfold coverable_bet, accepted_bet; rewrite Hnb; done.
Qed.

(** C7.  A bet on CASINO or SPORT by a registered user whose positive stake
    exceeds the balance is accepted and changes nothing: the handler, and
    so the dispatcher, returns the state it was given. *)
Theorem uncoverable_table_bet_changes_nothing (t kw user_id game amount : string)
    (n balance : Z) (s : CasinoSystem) :
  Py.startswith t "bet" = true →
  Py.split t = [kw; user_id; game; amount] →
  game = CASINO ∨ game = SPORT →
  Py.int amount = Some n → 0 < n →
  balances s !! user_id = Some balance → balance < n →
  make_bet t s = (inr tt, s) ∧ dispatch t s = (inr tt, s).
Proof.
  intros Hb Hs Hg Hi Hn Hu Hlt. rewrite (dispatch_bet _ Hb).
  assert (make_bet t s = (inr tt, s)) as H; [|done].
  unfold make_bet. destruct Hg as [-> | ->]; run_handler.
Qed.

Lemma uncoverable_table_bet_changes_nothing_witness :
  make_bet "bet u1 CASINO 1000000" tier1_state = (inr tt, tier1_state)
  ∧ dispatch "bet u1 CASINO 1000000" tier1_state = (inr tt, tier1_state).
Proof.
  apply (uncoverable_table_bet_changes_nothing
           "bet u1 CASINO 1000000" "bet" "u1" "CASINO" "1000000"
           1000000 760 tier1_state);
    first [reflexivity | lia | by left].
Defined.

(** ** Scenarios are handed out first in, first out *)

Ltac solve_fifo_step :=
  first
    [ left; split; [by rewrite ?insert_id by done
                   | by (exists []; rewrite app_nil_r)]
    | left; split; [done | by eexists]
    | right; do 2 eexists; split_and!; (done || reflexivity) ].

Lemma check_campaign_status_fifo (user_id : string) (s : CasinoSystem) :
  fifo_step s (state_after (check_campaign_status user_id) s).
Proof.
  unfold fifo_step, check_campaign_status. run_monad; solve_fifo_step.
Qed.

Lemma dispatch_fifo (t : string) (s : CasinoSystem) :
  fifo_step s (state_after (dispatch t) s).
Proof.
  destruct (dispatch_cases t)
    as [[_ ->]|[[_ ->]|[[_ ->]|[[_ ->]|[(_ & _ & ->)|[_ ->]]]]]].
  - unfold make_registration. run_monad; unfold fifo_step; solve_fifo_step.
  - unfold add_scenario. run_monad; unfold fifo_step; solve_fifo_step.
  - unfold make_deposit.
    run_handler_using check_campaign_status_fifo;
      try done; unfold fifo_step; solve_fifo_step.
  - unfold make_bet.
    run_handler_using check_campaign_status_fifo;
      try done; unfold fifo_step; solve_fifo_step.
  - unfold get_balance. run_monad; unfold fifo_step; solve_fifo_step.
  - unfold fifo_step. solve_fifo_step.
Qed.

Lemma scenario_of_marked (scenario : list string) (marker : string) :
  scenario_of (scenario ++ [marker]) = scenario.
Proof. unfold scenario_of, Py.slice_init. apply removelast_last. Qed.

Example two_users_run_state :
  process two_users_run initial =
    (inr tt,
     {| balances := {["a" := 51; "b" := 160]}; outputs := []; win := true;
        unused_scenarios := [["7"; "8"; "9"]];
        deposits := {["a" := 100; "b" := 100]};
        slot_bets := {["a" := 50; "b" := 50]};
        user_campaigns := {["a" := ["1"; "2"; "3"; "1"];
                            "b" := ["10"; "20"; "30"; "1"]]} |}).
Proof. vm_compute. reflexivity. Qed.

(** ** Balances stay non-negative *)

Ltac solve_outcome :=
  first
    [ left; split_and!;
        [ done
        | by rewrite ?insert_id by done
        | first [ by left
                | right; do 5 eexists; split_and!;
                    first [ eassumption | by left | by right | done ] ] ]
    | right; eexists; split_and!;
        [ done | done | done
        | first [ by left
                | right; do 3 eexists; split_and!;
                    first [ eassumption | done ] ] ] ].

Lemma check_campaign_status_outcome (user_id : string) (s : CasinoSystem) :
  evaluator_outcome user_id s (state_after (check_campaign_status user_id) s).
Proof.
  unfold evaluator_outcome, check_campaign_status. run_monad; solve_outcome.
Qed.

Lemma nonneg_prize_int (prize : string) (n : Z) :
  nonneg_prize prize = true → Py.int prize = Some n → 0 ≤ n.
Proof. unfold nonneg_prize. intros H Hi. rewrite Hi in H. lia. Qed.

Lemma ledger_ok_initial : ledger_ok initial.
Proof.
  split_and!; [apply map_Forall_empty | constructor | apply map_Forall_empty].
Qed.

Lemma evaluator_outcome_ok (user_id : string) (s s' : CasinoSystem) :
  ledger_ok s → evaluator_outcome user_id s s' → ledger_ok s'.
Proof.
  intros (Hb & Hq & Hc) [(Hq' & Hc' & Hb')|(sc & Hq' & Hu & Hc' & Hb')];
    unfold ledger_ok.
  - rewrite Hq', Hc'. split_and!; [|done..].
    destruct Hb' as [->|(c & i & p & n & old & Hcu & Hi & Hi' & Hp & Ho & ->)];
      [done|].
    apply map_Forall_insert_2; [|done].
    apply Hb in Ho. apply Hc in Hcu as (sc & m & (p1 & p2 & p3 & -> & H1 & H2 & H3) & ->).
    assert (0 ≤ n); [|lia].
    destruct Hi' as [-> | ->]; simpl in Hi; simplify_eq;
      eauto using nonneg_prize_int.
  - rewrite Hq' in Hq. apply Forall_cons in Hq as [Hsc Hq]. rewrite Hc'.
    split_and!; [|done|].
    + destruct Hb' as [->|(p & n & old & Hi & Hp & Ho & ->)]; [done|].
      apply map_Forall_insert_2; [|done]. apply Hb in Ho.
      destruct Hsc as (p1 & p2 & p3 & -> & H1 & H2 & H3).
      simpl in Hi. simplify_eq.
      assert (0 ≤ n) by eauto using nonneg_prize_int. lia.
    + apply map_Forall_insert_2; [|done]. eauto.
Qed.

Lemma check_campaign_status_ok (user_id : string) (s : CasinoSystem) :
  ledger_ok s → ledger_ok (state_after (check_campaign_status user_id) s).
Proof.
  eauto using evaluator_outcome_ok, check_campaign_status_outcome.
Qed.

(** Close a goal [ledger_ok s'] where [s'] is the state [s] of the
    invariant with a balance or a total rewritten. *)
Ltac solve_ledger_ok :=
  try match goal with
    | H : ledger_ok _ → ledger_ok ?c |- ledger_ok ?c => apply H
    end;
  match goal with
  | Hok : ledger_ok _ |- _ =>
      let Hb := fresh "Hb" in
      destruct Hok as (Hb & ? & ?); unfold ledger_ok; simpl;
      split_and!; try done;
      (apply map_Forall_insert_2; [|done];
       repeat match goal with
         | H : balances _ !! _ = Some _ |- _ => apply Hb in H
         end;
       lia)
  end.

Lemma make_registration_ok (t : string) (s : CasinoSystem) :
  ledger_ok s → ledger_ok (state_after (make_registration t) s).
Proof.
  intros Hok. unfold make_registration. run_monad; solve_ledger_ok.
Qed.

Lemma add_scenario_ok (t : string) (s : CasinoSystem) :
  Py.startswith t "addscenario" = true → scenario_line_ok t = true →
  ledger_ok s → ledger_ok (state_after (add_scenario t) s).
Proof.
  unfold scenario_line_ok, loaded_scenario, add_scenario.
  intros -> Hline Hok. run_monad.
  destruct Hok as (Hb & Hq & Hc). split_and!; simpl; try done.
  apply Forall_app. split; [done|]. apply Forall_singleton.
  unfold good_scenario. simpl in Hline.
  repeat (apply andb_prop in Hline as [? Hline]). eauto 10.
Qed.

Lemma make_deposit_ok (t : string) (s : CasinoSystem) :
  ledger_ok s → ledger_ok (state_after (make_deposit t) s).
Proof.
  intros Hok. unfold make_deposit.
  run_handler_using check_campaign_status_ok; solve_ledger_ok.
Qed.

Lemma make_bet_ok (t : string) (s : CasinoSystem) :
  ledger_ok s → ledger_ok (state_after (make_bet t) s).
Proof.
  intros Hok. unfold make_bet.
  run_handler_using check_campaign_status_ok; solve_ledger_ok.
Qed.

Lemma get_balance_ok (t : string) (s : CasinoSystem) :
  ledger_ok s → ledger_ok (state_after (get_balance t) s).
Proof.
  intros Hok. unfold get_balance. run_monad; solve_ledger_ok.
Qed.

Lemma dispatch_ok (t : string) (s : CasinoSystem) :
  scenario_line_ok t = true →
  ledger_ok s → ledger_ok (state_after (dispatch t) s).
Proof.
  intros Hline Hok. destruct (dispatch_cases t)
    as [[_ ->]|[[H ->]|[[_ ->]|[[_ ->]|[(_ & _ & ->)|[_ ->]]]]]];
    auto using make_registration_ok, add_scenario_ok, make_deposit_ok,
      make_bet_ok, get_balance_ok.
Qed.

Lemma process_ok (transactions : list string) (s : CasinoSystem) :
  loads_nonneg transactions s = true →
  ledger_ok s → ledger_ok (state_after (process transactions) s).
Proof.
  revert s. induction transactions as [|t rest IH]; intros s Hall Hok;
    [done|].
  simpl in Hall. apply andb_prop in Hall as [Ht Hall].
  pose proof (dispatch_ok t s Ht Hok) as Hstep.
  unfold state_after in *. simpl. unfold bind.
  destruct (dispatch t s) as [[e|[]] s1]; simpl in *; auto.
Qed.

Lemma loads_nonneg_take (transactions : list string) (k : nat)
    (s : CasinoSystem) :
  loads_nonneg transactions s = true →
  loads_nonneg (take k transactions) s = true.
Proof.
  revert k s. induction transactions as [|t rest IH]; intros [|k] s Hall;
    try done.
  simpl in *. apply andb_prop in Hall as [-> Hall]. simpl.
  destruct (dispatch t s) as [[e|[]] s1]; auto.
Qed.

(** C9.  When every scenario the run loads has prizes that convert to
    non-negative integers, every balance is non-negative after each line
    processed: in the state reached after any number [k] of lines of the
    file, no user has a negative balance. *)
Theorem balances_never_negative (file : list string) (k : nat)
    (user_id : string) (balance : Z) :
  loads_nonneg (get_file_content file) initial = true →
  balances (state_after (process (get_file_content (take k file))) initial)
    !! user_id = Some balance →
  0 ≤ balance.
Proof.
  intros Hfile Hu. unfold get_file_content in *. rewrite fmap_take in Hu.
  apply (loads_nonneg_take _ k) in Hfile.
  destruct (process_ok _ initial Hfile ledger_ok_initial) as (Hb & _ & _).
  by apply Hb in Hu.
Qed.

Lemma balances_never_negative_witness :
  loads_nonneg (get_file_content lost_bet_run) initial = true
  ∧ balances
      (state_after (process (get_file_content (take 5 lost_bet_run))) initial)
      !! "a" = Some 5
  ∧ 0 ≤ 5.
Proof.
  split_and!; [vm_compute; reflexivity..|].
  apply (balances_never_negative lost_bet_run 5 "a" 5);
    vm_compute; reflexivity.
Defined.

(** ** No run leaves tier 1 *)

Lemma fifo_step_tier1_only (s s' : CasinoSystem) :
  fifo_step s s' → tier1_only s → tier1_only s'.
Proof.
  unfold tier1_only. intros [[-> _]|(u & sc & _ & _ & ->)] H; [done|].
  apply map_Forall_insert_2; [|done].
  unfold tier_marker, Py.index_last. apply last_snoc.
Qed.

Lemma process_tier1_only (transactions : list string) (s : CasinoSystem) :
  tier1_only s → tier1_only (state_after (process transactions) s).
Proof.
  revert s. induction transactions as [|t rest IH]; intros s H; [done|].
  pose proof (fifo_step_tier1_only _ _ (dispatch_fifo t s) H) as Hstep.
  unfold state_after in *. simpl. unfold bind.
  destruct (dispatch t s) as [[e|[]] s1]; simpl in *; auto.
Qed.

(** In every state a run reaches, every campaign is still marked 1: the
    markers 2 and 3 are never stored, so prize3 is never paid. *)
Lemma run_marker_is_1 (transactions : list string) (user_id : string)
    (campaign : list string) :
  user_campaigns (state_after (process transactions) initial) !! user_id
    = Some campaign →
  tier_marker campaign = Some "1".
Proof.
  intros H. eapply (process_tier1_only transactions initial); [|done].
  apply map_Forall_empty.
Qed.

(** * Further properties *)

(** ** The evaluator, case by case *)

(** X1.  Below the thresholds the evaluator is idle: when a total is
    missing, or the user has no campaign and deposits below 100 or SLOT
    wagers below 50, or the user has a campaign (with whatever marker) and
    deposits below 500 or SLOT wagers below 250, the invocation returns
    and leaves the state as it was. *)
Theorem check_campaign_status_idle (user_id : string) (s : CasinoSystem) :
  below_thresholds user_id s = true →
  check_campaign_status user_id s = (inr tt, s).
Proof.
  unfold below_thresholds, check_campaign_status, contains. intros H.
  destruct (deposits s !! user_id) as [d|] eqn:Hd; [|by run_monad].
  destruct (slot_bets s !! user_id) as [sb|] eqn:Hs; [|by run_monad].
  destruct (user_campaigns s !! user_id) as [c|] eqn:Hc; simpl in H;
    apply orb_prop in H; run_monad.
Qed.

Lemma check_campaign_status_idle_witness :
  below_thresholds "u1" tier1_state = false
  ∧ below_thresholds "b"
      (state_after (process (take 6 two_users_run)) initial) = true
  ∧ check_campaign_status "b"
      (state_after (process (take 6 two_users_run)) initial)
    = (inr tt, state_after (process (take 6 two_users_run)) initial).
Proof.
  split_and!; [vm_compute; reflexivity..|].
  apply (check_campaign_status_idle "b"). vm_compute. reflexivity.
Defined.

(** X2.  The first assignment.  For a registered user without a campaign
    whose deposits reach 100 and SLOT wagers reach 50, with a scenario
    queued, the evaluator takes the front of the queue, stores it with the
    marker 1 as the user's campaign, and only then converts its first
    element: if that is an integer it is added to the balance; if not, the
    invocation raises with the scenario already consumed and assigned and
    the balance as it was. *)
Theorem check_campaign_status_first_assignment (user_id : string)
    (s : CasinoSystem) (d sb balance : Z) (scenario : list string)
    (rest : list (list string)) (prize : string) :
  user_campaigns s !! user_id = None →
  deposits s !! user_id = Some d → 100 ≤ d →
  slot_bets s !! user_id = Some sb → 50 ≤ sb →
  balances s !! user_id = Some balance →
  unused_scenarios s = scenario :: rest →
  (scenario ++ ["1"]) !! 0%nat = Some prize →
  let assigned :=
    set_user_campaigns (<[user_id := scenario ++ ["1"]]>)
      (set_unused_scenarios (λ _, rest) s) in
  check_campaign_status user_id s =
    match Py.int prize with
    | Some n => (inr tt, set_balances (<[user_id := balance + n]>) assigned)
    | None => (inl (PrizeLiteral prize), assigned)
    end.
Proof.
  intros Hc Hd Hd' Hs Hs' Hb Hq Hp. unfold check_campaign_status.
  run_monad.
Qed.

Lemma check_campaign_status_first_assignment_witness :
  check_campaign_status "u1"
    (set_unused_scenarios (λ _, [["ten"; "20"; "30"]; ["1"; "2"; "3"]])
       no_scenario_state)
  = (inl (PrizeLiteral "ten"),
     set_user_campaigns (<["u1" := ["ten"; "20"; "30"; "1"]]>)
       (set_unused_scenarios (λ _, [["1"; "2"; "3"]]) no_scenario_state)).
Proof.
  apply (check_campaign_status_first_assignment "u1"
           (set_unused_scenarios (λ _, [["ten"; "20"; "30"]; ["1"; "2"; "3"]])
              no_scenario_state)
           100 50 150 ["ten"; "20"; "30"] [["1"; "2"; "3"]] "ten");
    first [reflexivity | lia].
Defined.

(** ** One keyword per line *)

Lemma startswith_cons (t : string) (c : ascii) (k : string) :
  Py.startswith t (String c k) = true →
  ∃ t', t = String c t' ∧ Py.startswith t' k = true.
Proof.
  unfold Py.startswith. destruct t as [|a t']; simpl; [done|].
  destruct (ascii_dec c a) as [->|]; [eauto | done].
Qed.

Lemma startswith_keywords_eq (t k1 k2 : string) :
  k1 ∈ keywords → k2 ∈ keywords →
  Py.startswith t k1 = true → Py.startswith t k2 = true → k1 = k2.
Proof.
  unfold keywords. intros H1 H2 Hs1 Hs2.
  repeat (apply elem_of_cons in H1 as [->|H1]);
    try (by apply elem_of_nil in H1);
    repeat (apply elem_of_cons in H2 as [->|H2]);
    try (by apply elem_of_nil in H2); try done;
    apply startswith_cons in Hs1 as (t1 & -> & Hs1);
    try done;
    apply startswith_cons in Hs1 as (t2 & -> & Hs1); done.
Qed.

(** X3.  No line starts with two keywords, so the order in which the
    dispatcher tests them decides nothing: a line that starts with a
    keyword goes to the handler of that keyword. *)
Theorem dispatch_by_keyword (t keyword : string) :
  keyword ∈ keywords → Py.startswith t keyword = true →
  (∀ other, other ∈ keywords → Py.startswith t other = true →
            other = keyword)
  ∧ ∃ handler, handler_of keyword = Some handler ∧ dispatch t = handler t.
Proof.
  intros Hk Hs. split; [eauto using startswith_keywords_eq|].
  destruct (dispatch_cases t)
    as [[H ->]|[[H ->]|[[H ->]|[[H ->]|[(_ & H & ->)|[H _]]]]]].
  1-5: match type of H with
       | Py.startswith _ ?k = true =>
           assert (k ∈ keywords) as Hin
             by (apply (bool_decide_unpack _); vm_compute; exact I);
           rewrite <- (startswith_keywords_eq t _ _ Hin Hk H Hs)
       end; eauto.
  exfalso. unfold starts_with_keyword in H.
  apply not_true_iff_false in H. apply H, existsb_exists.
  exists keyword. by rewrite <- list_elem_of_In.
Qed.

Lemma dispatch_by_keyword_witness :
  (∀ other, other ∈ keywords →
            Py.startswith "balance u1" other = true → other = "balance")
  ∧ ∃ handler, handler_of "balance" = Some handler
               ∧ dispatch "balance u1" = handler "balance u1".
Proof.
  apply (dispatch_by_keyword "balance u1" "balance");
    [apply (bool_decide_unpack _) |]; vm_compute; done.
Defined.

(** The truth table of the five tests, with the handler chosen. *)
Lemma dispatch_table (t : string) :
  let flags := Py.startswith t <$> keywords in
  (flags = [true; false; false; false; false]
   ∧ dispatch t = make_registration t)
  ∨ (flags = [false; true; false; false; false]
     ∧ dispatch t = add_scenario t)
  ∨ (flags = [false; false; true; false; false]
     ∧ dispatch t = make_deposit t)
  ∨ (flags = [false; false; false; true; false]
     ∧ dispatch t = make_bet t)
  ∨ (flags = [false; false; false; false; true]
     ∧ dispatch t = get_balance t)
  ∨ (flags = [false; false; false; false; false]
     ∧ dispatch t = ret tt).
Proof.
  assert (∀ k1 k2, k1 ∈ keywords → k2 ∈ keywords → k1 ≠ k2 →
            Py.startswith t k1 = true → Py.startswith t k2 = false) as Hx.
  { intros k1 k2 H1 H2 Hne Hs1. destruct (Py.startswith t k2) eqn:Hs2; [|done].
    destruct Hne. eauto using startswith_keywords_eq. }
  assert (∀ k, k ∈ keywords ↔ bool_decide (k ∈ keywords) = true) as Hk
    by (intros k; by rewrite bool_decide_eq_true).
  unfold keywords in *. simpl.
  destruct (dispatch_cases t)
    as [[H ->]|[[H ->]|[[H ->]|[[H ->]|[(_ & H & ->)|[H ->]]]]]].
  6: { unfold starts_with_keyword, keywords in H. cbn [existsb] in H.
       repeat (apply orb_false_elim in H as [-> H]). by do 5 right. }
  all: rewrite H;
    match type of H with
    | Py.startswith _ ?k1 = true =>
        repeat match goal with
          | |- context [Py.startswith ?x ?k] =>
              rewrite (Hx k1 k ltac:(apply Hk; vm_compute; reflexivity)
                         ltac:(apply Hk; vm_compute; reflexivity)
                         ltac:(done) H)
          end
    end;
    repeat first [by split | by (left; split) | right].
Qed.

(** ** What one line does to the totals and to the output log *)

(** Name the five flags of [dispatch_table]. *)
Ltac by_keyword t :=
  let Hf := fresh "Hflags" in
  destruct (dispatch_table t)
    as [[Hf ->]|[[Hf ->]|[[Hf ->]|[[Hf ->]|[[Hf ->]|[Hf ->]]]]]];
  unfold keywords in Hf; simpl in Hf; simplify_eq.

(** Split the tokens of a line, up to five. *)
Ltac by_tokens t :=
  destruct (Py.split t) as [|? [|? [|? [|? [|? ?]]]]] eqn:?.

Lemma contains_lookup {V} (d : gmap string V) (k : string) :
  contains d k = bool_decide (is_Some (d !! k)).
Proof. done. Qed.

(** The effect of one line on the two maps of totals. *)
Lemma dispatch_totals_step (t : string) (s : CasinoSystem) :
  deposits (state_after (dispatch t) s)
    = match accepted_deposit t s with
      | Some (user_id, n) =>
          <[user_id := default 0 (deposits s !! user_id) + n]> (deposits s)
      | None => deposits s
      end
  ∧ slot_bets (state_after (dispatch t) s)
    = match accepted_slot_stake t s with
      | Some (user_id, n) =>
          <[user_id := default 0 (slot_bets s !! user_id) + n]> (slot_bets s)
      | None => slot_bets s
      end.
Proof.
  unfold accepted_deposit, accepted_slot_stake. by_keyword t;
    repeat match goal with H : Py.startswith _ _ = _ |- _ => rewrite H end.
  - unfold make_registration. split; run_handler.
  - unfold add_scenario. split; run_handler.
  - unfold make_deposit. by_tokens t; try done.
    destruct (Py.int _) as [n|] eqn:Hi; [|by run_handler].
    rewrite contains_lookup.
    destruct (balances s !! _) as [b|] eqn:Hb;
      destruct (0 <? n) eqn:Hn; split; run_handler; try congruence.
  - unfold make_bet. by_tokens t; try done.
    destruct (Py.int _) as [n|] eqn:Hi; [|by run_handler].
    rewrite contains_lookup.
    destruct (balances s !! _) as [b|] eqn:Hb;
      destruct (0 <? n) eqn:Hn; split; run_handler; try congruence.
    match goal with
    | H : (_ =? SLOT)%string = true |- _ => apply String.eqb_eq in H as ->
    end.
    match goal with
    | H : negb (bool_decide _) = true |- _ => by vm_compute in H
    end.
  - unfold get_balance. split; run_handler.
  - done.
Qed.

(** X4.  Totals change only by accepted commands, and by exactly the
    amount.  Processing a line adds the amount to the user's deposit total
    (starting from 0) when the line is an accepted deposit, and leaves the
    deposit totals alone otherwise; it adds the stake to the user's SLOT
    wager total when the line is an accepted SLOT bet, coverable or not,
    and leaves the SLOT wager totals alone otherwise.  This holds also when
    the evaluator raises afterwards. *)
Theorem dispatch_totals (t : string) (s : CasinoSystem) :
  deposits (state_after (dispatch t) s)
    = match accepted_deposit t s with
      | Some (user_id, n) =>
          <[user_id := default 0 (deposits s !! user_id) + n]> (deposits s)
      | None => deposits s
      end
  ∧ slot_bets (state_after (dispatch t) s)
    = match accepted_slot_stake t s with
      | Some (user_id, n) =>
          <[user_id := default 0 (slot_bets s !! user_id) + n]> (slot_bets s)
      | None => slot_bets s
      end.
Proof. apply dispatch_totals_step. Qed.

(** The effect of one line on the output log. *)
Lemma dispatch_outputs_step (t : string) (s : CasinoSystem) :
  outputs (state_after (dispatch t) s)
    = match answered_query t s with
      | Some balance => outputs s ++ [Py.str balance]
      | None => outputs s
      end.
Proof.
  unfold answered_query. by_keyword t;
    repeat match goal with H : Py.startswith _ _ = _ |- _ => rewrite H end.
  - unfold make_registration. run_handler.
  - unfold add_scenario. run_handler.
  - unfold make_deposit. run_handler; congruence.
  - unfold make_bet. run_handler; congruence.
  - unfold get_balance. by_tokens t; try done.
    destruct (balances s !! _) as [b|] eqn:Hb; run_handler.
  - done.
Qed.

(** X5.  The output log changes only by answered balance queries.
    Processing a line appends the decimal text of the user's balance, as it
    is when the line is processed, when the line is an accepted balance
    query, and leaves the log alone otherwise. *)
Theorem dispatch_outputs (t : string) (s : CasinoSystem) :
  outputs (state_after (dispatch t) s)
    = match answered_query t s with
      | Some balance => outputs s ++ [Py.str balance]
      | None => outputs s
      end.
Proof. apply dispatch_outputs_step. Qed.

Lemma process_cons (t : string) (rest : list string) (s : CasinoSystem) :
  process (t :: rest) s
    = match dispatch t s with
      | (inr _, s') => process rest s'
      | (inl e, s') => (inl e, s')
      end.
Proof. simpl. unfold bind. by destruct (dispatch t s) as [[?|[]] ?]. Qed.

(** X6.  Over a run the output log only grows at its end, by at most one
    entry for each line that starts with [balance]. *)
Theorem process_outputs_append_only (transactions : list string)
    (s : CasinoSystem) :
  let s' := state_after (process transactions) s in
  outputs s `prefix_of` outputs s'
  ∧ (length (outputs s') ≤
       length (outputs s)
       + length (filter (λ t, Py.startswith t "balance" = true) transactions))%nat.
Proof.
  unfold state_after. revert s.
  induction transactions as [|t rest IH]; intros s; cbn zeta in *.
  { simpl. split; [done | lia]. }
  rewrite process_cons.
  pose proof (dispatch_outputs_step t s) as Ho. unfold state_after in Ho.
  assert (outputs s `prefix_of` outputs (dispatch t s).2
          ∧ (length (outputs (dispatch t s).2) ≤
               length (outputs s)
               + (if decide (Py.startswith t "balance" = true) then 1 else 0))%nat)
    as [Hp Hl].
  { rewrite Ho. unfold answered_query. case_decide as Hb.
    - rewrite Hb. repeat case_match; rewrite ?length_app; simpl;
        split; try done; try lia; by apply prefix_app_r.
    - apply not_true_is_false in Hb. rewrite Hb. split; [done | lia]. }
  rewrite filter_cons.
  destruct (dispatch t s) as [[e|[]] s1]; simpl in *.
  - split; [done|]. case_decide; simpl; lia.
  - destruct (IH s1) as [Hp' Hl']. split; [by etrans|].
    case_decide; simpl in *; lia.
Qed.

(** ** Users do not affect one another *)

Lemma check_campaign_status_other (user_id : string) (s : CasinoSystem) :
  ∀ other, user_id ≠ other →
    balances (state_after (check_campaign_status user_id) s) !! other
      = balances s !! other
    ∧ user_campaigns (state_after (check_campaign_status user_id) s) !! other
      = user_campaigns s !! other
    ∧ deposits (state_after (check_campaign_status user_id) s) = deposits s
    ∧ slot_bets (state_after (check_campaign_status user_id) s)
      = slot_bets s.
Proof.
  intros other Hne.
  pose proof (check_campaign_status_frame user_id s) as Hf.
  pose proof (check_campaign_status_outcome user_id s) as Ho.
  unfold state_after in *.
  destruct (check_campaign_status user_id s) as [r s']; simpl in *.
  destruct Hf as (_ & _ & -> & -> & _).
  destruct Ho as [(_ & -> & Hb)|(sc & _ & _ & -> & Hb)].
  - destruct Hb as [->|(c & i & p & n & old & _ & _ & _ & _ & _ & ->)];
      by rewrite ?lookup_insert_ne by done.
  - destruct Hb as [->|(p & n & old & _ & _ & _ & ->)];
      by rewrite ?lookup_insert_ne by done.
Qed.

(** X7.  A line touches the per-user records of one user only, the one
    its second token names: for every other user the balance, the deposit
    total, the SLOT wager total and the campaign are after the line what
    they were before it.  (The queue, the flag and the output log are
    shared.) *)
Theorem dispatch_other_users (t other : string) (s : CasinoSystem) :
  Py.split t !! 1%nat ≠ Some other →
  let s' := state_after (dispatch t) s in
  balances s' !! other = balances s !! other
  ∧ deposits s' !! other = deposits s !! other
  ∧ slot_bets s' !! other = slot_bets s !! other
  ∧ user_campaigns s' !! other = user_campaigns s !! other.
Proof.
  intros Hne. cbn zeta. by_keyword t.
  - unfold make_registration. by_tokens t; run_handler.
    rewrite lookup_insert_ne; [done | congruence].
  - unfold add_scenario. run_handler.
  - unfold make_deposit. by_tokens t; try by run_handler.
    assert (s1 ≠ other) as Hu by (simpl in Hne; congruence).
    run_handler_using check_campaign_status_other;
      try (specialize (Heval other Hu); destruct_and?);
      repeat match goal with H : _ = _ |- _ => rewrite H end;
      by rewrite ?lookup_insert_ne by done.
  - unfold make_bet. by_tokens t; try by run_handler.
    assert (s1 ≠ other) as Hu by (simpl in Hne; congruence).
    run_handler_using check_campaign_status_other;
      try (specialize (Heval other Hu); destruct_and?);
      repeat match goal with H : _ = _ |- _ => rewrite H end;
      by rewrite ?lookup_insert_ne by done.
  - unfold get_balance. run_handler.
  - done.
Qed.

Lemma dispatch_other_users_witness :
  let s := state_after (process (take 8 two_users_run)) initial in
  let s' := state_after (dispatch "bet a SLOT 50") s in
  balances s' !! "b" = balances s !! "b"
  ∧ deposits s' !! "b" = deposits s !! "b"
  ∧ slot_bets s' !! "b" = slot_bets s !! "b"
  ∧ user_campaigns s' !! "b" = user_campaigns s !! "b".
Proof.
  apply (dispatch_other_users "bet a SLOT 50" "b"). vm_compute. discriminate.
Defined.

(** ** The shape of the states a run reaches *)

Lemma check_campaign_status_eligible (user_id : string) (s : CasinoSystem) :
  user_campaigns s !! user_id = None →
  is_Some (user_campaigns (state_after (check_campaign_status user_id) s)
             !! user_id) →
  ∃ d sb, deposits s !! user_id = Some d ∧ 100 ≤ d
          ∧ slot_bets s !! user_id = Some sb ∧ 50 ≤ sb.
Proof.
  intros Hc. unfold check_campaign_status. run_monad;
    try (intros [? ?]; congruence); intros _; eexists _, _; split_and!;
    first [done | lia].
Qed.

Lemma well_formed_initial : well_formed initial.
Proof.
  split_and!; try (by intros ? ? ?); constructor.
Qed.

Lemma well_formed_set_balances (s : CasinoSystem) (user_id : string) (v : Z) :
  well_formed s → well_formed (set_balances (<[user_id := v]>) s).
Proof.
  intros (Hd & Hs & Hq & Hc). split_and!; simpl; try done.
  - intros u d Hu. destruct (Hd u d Hu) as [? ?]. split; [done|].
    by apply lookup_insert_is_Some'; right.
  - intros u d Hu. destruct (Hs u d Hu) as [? ?]. split; [done|].
    by apply lookup_insert_is_Some'; right.
Qed.

Lemma well_formed_set_deposits (s : CasinoSystem) (user_id : string) (v : Z) :
  well_formed s → is_Some (balances s !! user_id) →
  default 0 (deposits s !! user_id) < v →
  well_formed (set_deposits (<[user_id := v]>) s).
Proof.
  intros (Hd & Hs & Hq & Hc) Hu Hv.
  assert (0 ≤ default 0 (deposits s !! user_id)) as H0.
  { destruct (deposits s !! user_id) as [d|] eqn:E; simpl; [|done].
    apply Hd in E. lia. }
  split_and!; simpl; try done.
  - intros u d. destruct (decide (user_id = u)) as [->|Hne].
    + rewrite lookup_insert_eq. intros [= <-]. split; [lia | done].
    + rewrite lookup_insert_ne by done. apply Hd.
  - intros u c Hu'. destruct (Hc u c Hu') as (Hshape & d & sb & Hd' & ? & ? & ?).
    split; [done|]. destruct (decide (user_id = u)) as [->|Hne].
    + rewrite lookup_insert_eq. rewrite Hd' in Hv. simpl in Hv.
      eexists _, sb. split_and!; try done. lia.
    + rewrite lookup_insert_ne by done. eauto 10.
Qed.

Lemma well_formed_set_slot_bets (s : CasinoSystem) (user_id : string)
    (v : Z) :
  well_formed s → is_Some (balances s !! user_id) →
  default 0 (slot_bets s !! user_id) < v →
  well_formed (set_slot_bets (<[user_id := v]>) s).
Proof.
  intros (Hd & Hs & Hq & Hc) Hu Hv.
  assert (0 ≤ default 0 (slot_bets s !! user_id)) as H0.
  { destruct (slot_bets s !! user_id) as [d|] eqn:E; simpl; [|done].
    apply Hs in E. lia. }
  split_and!; simpl; try done.
  - intros u d. destruct (decide (user_id = u)) as [->|Hne].
    + rewrite lookup_insert_eq. intros [= <-]. split; [lia | done].
    + rewrite lookup_insert_ne by done. apply Hs.
  - intros u c Hu'. destruct (Hc u c Hu') as (Hshape & d & sb & ? & ? & Hs' & ?).
    split; [done|]. destruct (decide (user_id = u)) as [->|Hne].
    + rewrite lookup_insert_eq. rewrite Hs' in Hv. simpl in Hv.
      eexists d, _. split_and!; try done. lia.
    + rewrite lookup_insert_ne by done. eauto 10.
Qed.

Lemma well_formed_set_win (s : CasinoSystem) (f : bool → bool) :
  well_formed s → well_formed (set_win f s).
Proof. done. Qed.

Lemma well_formed_set_outputs (s : CasinoSystem)
    (f : list string → list string) :
  well_formed s → well_formed (set_outputs f s).
Proof. done. Qed.

Lemma check_campaign_status_well_formed (user_id : string)
    (s : CasinoSystem) :
  well_formed s →
  well_formed (state_after (check_campaign_status user_id) s).
Proof.
  intros Hwf.
  pose proof (check_campaign_status_frame user_id s) as Hf.
  pose proof (check_campaign_status_outcome user_id s) as Ho.
  pose proof (check_campaign_status_eligible user_id s) as He.
  unfold state_after in *.
  destruct (check_campaign_status user_id s) as [r s']; simpl in *.
  destruct Hf as (_ & _ & Hfd & Hfs & _).
  assert (∀ u, is_Some (balances s !! u) → is_Some (balances s' !! u)) as Hreg.
  { intros u Hu.
    destruct Ho as [(_ & _ & Hb)|(sc & _ & _ & _ & Hb)].
    - destruct Hb as [->|(c & i & p & n & old & _ & _ & _ & _ & _ & ->)];
        [done|]. by apply lookup_insert_is_Some'; right.
    - destruct Hb as [->|(p & n & old & _ & _ & _ & ->)];
        [done|]. by apply lookup_insert_is_Some'; right. }
  destruct Hwf as (Hd & Hs & Hq & Hc).
  split_and!.
  - rewrite Hfd. intros u d Hu. destruct (Hd u d Hu). auto.
  - rewrite Hfs. intros u d Hu. destruct (Hs u d Hu). auto.
  - destruct Ho as [(-> & _)|(sc & Hq' & _)]; [done|].
    rewrite Hq' in Hq. by apply Forall_cons in Hq as [_ ?].
  - rewrite Hfd, Hfs.
    destruct Ho as [(_ & -> & _)|(sc & Hq' & Hnone & Hc' & _)]; [done|].
    rewrite Hc' in *. intros u c.
    destruct (decide (user_id = u)) as [->|Hne].
    + rewrite lookup_insert_eq in *. intros [= <-].
      rewrite Hq' in Hq. apply Forall_cons in Hq as [Hlen _].
      split; [|by apply He].
      destruct sc as [|p1 [|p2 [|p3 [|]]]]; simplify_eq/=. eauto.
    + rewrite lookup_insert_ne by done. apply Hc.
Qed.

Lemma well_formed_add_scenario (s : CasinoSystem) (p1 p2 p3 : string) :
  well_formed s →
  well_formed (set_unused_scenarios (λ q, q ++ [[p1; p2; p3]]) s).
Proof.
  intros (Hd & Hs & Hq & Hc). split_and!; simpl; try done.
  apply Forall_app. split; [done|]. by apply Forall_singleton.
Qed.

Ltac solve_well_formed :=
  try match goal with
    | H : well_formed _ → well_formed ?c |- well_formed ?c => apply H
    end;
  repeat match goal with
    | |- well_formed (set_win _ _) => apply well_formed_set_win
    | |- well_formed (set_outputs _ _) => apply well_formed_set_outputs
    | |- well_formed (set_unused_scenarios _ _) =>
        apply well_formed_add_scenario
    | |- well_formed (set_deposits _ _) => apply well_formed_set_deposits
    | |- well_formed (set_slot_bets _ _) => apply well_formed_set_slot_bets
    | |- well_formed (set_balances _ _) => apply well_formed_set_balances
    end;
  simpl; rewrite ?lookup_insert_eq; eauto; lia.

Lemma dispatch_well_formed (t : string) (s : CasinoSystem) :
  well_formed s → well_formed (state_after (dispatch t) s).
Proof.
  intros Hwf. by_keyword t.
  - unfold make_registration. run_handler; solve_well_formed.
  - unfold add_scenario. run_handler; solve_well_formed.
  - unfold make_deposit.
    run_handler_using check_campaign_status_well_formed; solve_well_formed.
  - unfold make_bet.
    run_handler_using check_campaign_status_well_formed; solve_well_formed.
  - unfold get_balance. run_handler; solve_well_formed.
  - done.
Qed.

Lemma process_well_formed (transactions : list string) (s : CasinoSystem) :
  well_formed s → well_formed (state_after (process transactions) s).
Proof.
  unfold state_after. revert s.
  induction transactions as [|t rest IH]; intros s Hwf; [done|].
  rewrite process_cons. pose proof (dispatch_well_formed t s Hwf) as Hstep.
  unfold state_after in Hstep.
  destruct (dispatch t s) as [[e|[]] s1]; simpl in *; auto.
Qed.

(** X8.  The shape of every state a run reaches from the initial state,
    whether the run has ended, is under way or has raised.  Every deposit
    total and every SLOT wager total is positive and belongs to a
    registered user; every queued scenario is three tokens; every campaign
    is three tokens followed by the marker 1, and its holder has deposits
    of at least 100 and SLOT wagers of at least 50. *)
Theorem run_states_well_formed (transactions : list string) :
  well_formed (state_after (process transactions) initial).
Proof. apply process_well_formed, well_formed_initial. Qed.

(** ** The exceptions of a run *)

Lemma check_campaign_status_run_error (user_id : string)
    (s : CasinoSystem) :
  well_formed s → is_Some (balances s !! user_id) →
  match check_campaign_status user_id s with
  | (inl e, _) => run_error e = true
  | (inr _, _) => True
  end.
Proof.
  intros (_ & _ & _ & Hc) [b Hb].
  destruct (user_campaigns s !! user_id) as [c|] eqn:E.
  - apply Hc in E as Hshape. destruct Hshape as [(p1 & p2 & p3 & ->) _].
    unfold check_campaign_status. run_monad.
  - unfold check_campaign_status. run_monad.
    by destruct l.
Qed.

Lemma dispatch_run_error (t : string) (s : CasinoSystem) :
  well_formed s →
  match dispatch t s with
  | (inl e, _) => run_error e = true
  | (inr _, _) => True
  end.
Proof.
  intros Hwf. by_keyword t.
  - unfold make_registration. run_handler.
  - unfold add_scenario. run_handler.
  - unfold make_deposit.
    run_handler_using check_campaign_status_run_error.
    apply Heval; [solve_well_formed|]. simpl. rewrite lookup_insert_eq. eauto.
  - unfold make_bet.
    run_handler_using check_campaign_status_run_error;
      (apply Heval; [solve_well_formed|]); simpl;
      rewrite ?lookup_insert_eq; eauto.
  - unfold get_balance. run_handler.
  - done.
Qed.

(** X9.  No subscript fails in a run.  Processing any list of lines from
    the initial state never raises a [KeyError] (the dict subscripts
    [self.balances[user_id]], [self.deposits[user_id]],
    [self.slot_bets[user_id]], [self.user_campaigns[user_id]]) and never
    raises the [IndexError] of a list subscript ([available_campaign[0]],
    [campaign[-1]], [campaign[1]], [campaign[2]]): a handler reads a
    balance only after checking the registration, and the evaluator
    subscripts only totals it has found and campaigns of four elements. *)
Theorem run_raises_no_lookup_error (transactions : list string) (e : exn) :
  result_of (process transactions) initial = inl e →
  e ≠ IndexError ∧ ∀ key, e ≠ KeyError key.
Proof.
  assert (∀ s, well_formed s → result_of (process transactions) s = inl e →
               run_error e = true) as H.
  { unfold result_of. induction transactions as [|t rest IH]; intros s Hwf;
      [done|].
    rewrite process_cons.
    pose proof (dispatch_run_error t s Hwf) as Herr.
    pose proof (dispatch_well_formed t s Hwf) as Hstep.
    unfold state_after in Hstep.
    destruct (dispatch t s) as [[e'|[]] s1]; simpl in *;
      [|exact (IH s1 Hstep)].
    intros [= Heq]. by rewrite <- Heq. }
  intros He. apply H in He; [|apply well_formed_initial].
  split; [|intros key]; intros ->; done.
Qed.

Lemma run_raises_no_lookup_error_witness :
  result_of
    (process ["register u1"; "addscenario ten 20 30"; "deposit u1 100";
              "bet u1 SLOT 50"; "balance u1"]) initial
    = inl (PrizeLiteral "ten")
  ∧ PrizeLiteral "ten" ≠ IndexError
  ∧ ∀ key, PrizeLiteral "ten" ≠ KeyError key.
Proof.
  split; [vm_compute; reflexivity|].
  apply (run_raises_no_lookup_error
           ["register u1"; "addscenario ten 20 30"; "deposit u1 100";
            "bet u1 SLOT 50"; "balance u1"]).
  vm_compute. reflexivity.
Defined.

(** ** What a run never takes back *)

Lemma check_campaign_status_registered (user_id other : string)
    (s : CasinoSystem) :
  is_Some (balances s !! other) →
  is_Some (balances (state_after (check_campaign_status user_id) s) !! other).
Proof.
  intros Hu. pose proof (check_campaign_status_outcome user_id s) as Ho.
  destruct Ho as [(_ & _ & Hb)|(sc & _ & _ & _ & Hb)].
  - destruct Hb as [->|(c & i & p & n & old & _ & _ & _ & _ & _ & ->)];
      [done|]. by apply lookup_insert_is_Some'; right.
  - destruct Hb as [->|(p & n & old & _ & _ & _ & ->)];
      [done|]. by apply lookup_insert_is_Some'; right.
Qed.

Lemma dispatch_registered (t other : string) (s : CasinoSystem) :
  is_Some (balances s !! other) →
  is_Some (balances (state_after (dispatch t) s) !! other).
Proof.
  intros Hu. by_keyword t.
  - unfold make_registration. run_handler.
    by apply lookup_insert_is_Some'; right.
  - unfold add_scenario. run_handler.
  - unfold make_deposit.
    run_handler_using (λ u, check_campaign_status_registered u other);
      try apply Heval; simpl; by apply lookup_insert_is_Some'; right.
  - unfold make_bet.
    run_handler_using (λ u, check_campaign_status_registered u other);
      try apply Heval; simpl; try done;
      by apply lookup_insert_is_Some'; right.
  - unfold get_balance. run_handler.
  - done.
Qed.

Lemma insert_total_grows (m : gmap string Z) (user_id other : string)
    (d n : Z) :
  m !! other = Some d → 0 < n →
  ∃ d', <[user_id := default 0 (m !! user_id) + n]> m !! other = Some d'
        ∧ d ≤ d'.
Proof.
  intros Hu Hn. destruct (decide (user_id = other)) as [->|Hne].
  - rewrite lookup_insert_eq, Hu. simpl. eexists. split; [done | lia].
  - rewrite lookup_insert_ne by done. eauto with lia.
Qed.

(** One line keeps every registration and lowers no total. *)
Lemma dispatch_monotone (t user_id : string) (s : CasinoSystem) :
  let s' := state_after (dispatch t) s in
  (is_Some (balances s !! user_id) → is_Some (balances s' !! user_id))
  ∧ (∀ d, deposits s !! user_id = Some d →
          ∃ d', deposits s' !! user_id = Some d' ∧ d ≤ d')
  ∧ (∀ sb, slot_bets s !! user_id = Some sb →
           ∃ sb', slot_bets s' !! user_id = Some sb' ∧ sb ≤ sb').
Proof.
  cbn zeta. destruct (dispatch_totals_step t s) as [Hd Hs].
  split_and!; [apply dispatch_registered | |].
  - intros d Hu. rewrite Hd. clear Hd Hs. unfold accepted_deposit.
    repeat case_match; simplify_eq; eauto with lia;
      (apply insert_total_grows; [done|];
       repeat match goal with
         | H : _ && _ = true |- _ => apply andb_prop in H as [H ?]
         end; lia).
  - intros sb Hu. rewrite Hs. clear Hd Hs. unfold accepted_slot_stake.
    repeat case_match; simplify_eq; eauto with lia;
      (apply insert_total_grows; [done|];
       repeat match goal with
         | H : _ && _ = true |- _ => apply andb_prop in H as [H ?]
         end; lia).
Qed.

(** X10.  A run takes nothing back: from any state, after any list of
    lines, a registered user is still registered, a deposit total is still
    there and is not lower, and a SLOT wager total is still there and is
    not lower. *)
Theorem process_monotone (transactions : list string) (user_id : string)
    (s : CasinoSystem) :
  let s' := state_after (process transactions) s in
  (is_Some (balances s !! user_id) → is_Some (balances s' !! user_id))
  ∧ (∀ d, deposits s !! user_id = Some d →
          ∃ d', deposits s' !! user_id = Some d' ∧ d ≤ d')
  ∧ (∀ sb, slot_bets s !! user_id = Some sb →
           ∃ sb', slot_bets s' !! user_id = Some sb' ∧ sb ≤ sb').
Proof.
  unfold state_after. revert s.
  induction transactions as [|t rest IH]; intros s; cbn zeta.
  { simpl. eauto 10 with lia. }
  rewrite process_cons.
  pose proof (dispatch_monotone t user_id s) as Hstep.
  unfold state_after in Hstep. cbn zeta in Hstep.
  destruct (dispatch t s) as [[e|[]] s1]; simpl in *; [done|].
  destruct Hstep as (Hb & Hd & Hs). destruct (IH s1) as (Hb' & Hd' & Hs').
  split_and!; [by auto | |].
  - intros d Hu. destruct (Hd d Hu) as (d1 & Hu1 & ?).
    destruct (Hd' d1 Hu1) as (d2 & ? & ?). eauto with lia.
  - intros d Hu. destruct (Hs d Hu) as (d1 & Hu1 & ?).
    destruct (Hs' d1 Hu1) as (d2 & ? & ?). eauto with lia.
Qed.

(** ** Bets on CASINO and SPORT *)

Lemma make_bet_table (t kw user_id game amount : string) (n balance : Z)
    (s : CasinoSystem) :
  Py.split t = [kw; user_id; game; amount] →
  game = CASINO ∨ game = SPORT →
  Py.int amount = Some n → 0 < n →
  balances s !! user_id = Some balance →
  make_bet t s =
    (inr tt,
     if n <=? balance then
       set_win negb
         (set_balances
            (<[user_id := balance + (if win s then n else - n)]>) s)
     else s).
Proof.
  intros Hs Hg Hi Hn Hu. unfold make_bet.
  destruct Hg as [-> | ->]; run_handler.
Qed.

(** X11.  How a bet on CASINO or SPORT is resolved.  For a registered user
    and a positive integer stake the handler returns; if the stake does not
    exceed the balance it adds the stake to the balance when the flag is at
    win, subtracts it when the flag is at loss, and toggles the flag; if
    the stake exceeds the balance it changes nothing.  No total, campaign,
    queue or output is touched either way. *)
Theorem make_bet_table_resolution (t kw user_id game amount : string)
    (n balance : Z) (s : CasinoSystem) :
  Py.split t = [kw; user_id; game; amount] →
  game = CASINO ∨ game = SPORT →
  Py.int amount = Some n → 0 < n →
  balances s !! user_id = Some balance →
  make_bet t s =
    (inr tt,
     if n <=? balance then
       set_win negb
         (set_balances
            (<[user_id := balance + (if win s then n else - n)]>) s)
     else s).
Proof. apply make_bet_table. Qed.

Lemma make_bet_table_resolution_witness :
  make_bet "bet u1 SPORT 60" tier1_state
  = (inr tt, set_win negb (set_balances (<["u1" := 700]>) tier1_state)).
Proof.
  apply (make_bet_table_resolution "bet u1 SPORT 60" "bet" "u1" "SPORT" "60"
           60 760 tier1_state);
    first [reflexivity | lia | by right].
Defined.

(** X12.  Two equal bets on CASINO or SPORT in a row cancel out when both
    are coverable: if the stake does not exceed the balance and either the
    flag is at win (the first bet wins, so the second is coverable and
    loses) or twice the stake does not exceed the balance (the first bet
    loses, the second wins), the state after the two bets is the state
    before them, flag included. *)
Theorem make_bet_table_twice (t kw user_id game amount : string)
    (n balance : Z) (s : CasinoSystem) :
  Py.split t = [kw; user_id; game; amount] →
  game = CASINO ∨ game = SPORT →
  Py.int amount = Some n → 0 < n →
  balances s !! user_id = Some balance → n ≤ balance →
  win s = true ∨ 2 * n ≤ balance →
  (make_bet t ;; make_bet t) s = (inr tt, s).
Proof.
  intros Hs Hg Hi Hn Hu Hle Hw. unfold bind.
  rewrite (make_bet_table _ _ _ _ _ _ _ _ Hs Hg Hi Hn Hu).
  replace (n <=? balance) with true by lia.
  erewrite (make_bet_table _ _ _ _ _ _ _ _ Hs Hg Hi Hn);
    [|simpl; apply lookup_insert_eq].
  destruct s as [bal out w q dep sl uc]. simpl in *.
  assert ((n <=? balance + (if w then n else - n)) = true) as ->
    by (destruct Hw as [-> | ?]; [|destruct w]; lia).
  unfold set_win, set_balances. simpl. f_equal. f_equal.
  - rewrite insert_insert_eq. apply insert_id. rewrite Hu. f_equal.
    destruct w; simpl; lia.
  - apply negb_involutive.
Qed.

Lemma make_bet_table_twice_witness :
  (make_bet "bet u1 CASINO 100" ;; make_bet "bet u1 CASINO 100") tier1_state
  = (inr tt, tier1_state).
Proof.
  apply (make_bet_table_twice "bet u1 CASINO 100" "bet" "u1" "CASINO" "100"
           100 760 tier1_state);
    first [reflexivity | lia | by left | (right; simpl; lia)].
Defined.

(** ** Registration *)

(** X13.  Registering a new user stores the balance 0 and nothing else; a
    balance query for that user then records [0]; registering the same
    user again raises the duplicate error and leaves the first
    registration in place. *)
Theorem make_registration_fresh (t kw user_id : string) (s : CasinoSystem) :
  Py.split t = [kw; user_id] →
  balances s !! user_id = None →
  make_registration t s = (inr tt, set_balances (<[user_id := 0]>) s)
  ∧ (make_registration t ;; make_registration t) s
    = (inl (UserExists user_id), set_balances (<[user_id := 0]>) s)
  ∧ ∀ query kq, Py.split query = [kq; user_id] →
      (make_registration t ;; get_balance query) s
      = (inr tt,
         set_outputs (λ o, o ++ ["0"]) (set_balances (<[user_id := 0]>) s)).
Proof.
  intros Hs Hu.
  assert (make_registration t s = (inr tt, set_balances (<[user_id := 0]>) s))
    as Hreg by (unfold make_registration; run_monad).
  split_and!; [done | |].
  - unfold bind. rewrite Hreg. unfold make_registration. run_monad.
    by rewrite lookup_insert_eq in *.
  - intros query kq Hq. unfold bind. rewrite Hreg. unfold get_balance.
    run_monad; rewrite lookup_insert_eq in *; by simplify_eq.
Qed.

Lemma make_registration_fresh_witness :
  make_registration "register u2" tier1_state
    = (inr tt, set_balances (<["u2" := 0]>) tier1_state)
  ∧ (make_registration "register u2" ;; make_registration "register u2")
      tier1_state
    = (inl (UserExists "u2"), set_balances (<["u2" := 0]>) tier1_state)
  ∧ ∀ query kq, Py.split query = [kq; "u2"] →
      (make_registration "register u2" ;; get_balance query) tier1_state
      = (inr tt,
         set_outputs (λ o, o ++ ["0"])
           (set_balances (<["u2" := 0]>) tier1_state)).
Proof.
  apply (make_registration_fresh "register u2" "register" "u2" tier1_state);
    reflexivity.
Defined.

(** ** Runs compose *)

(** X14.  Processing a list of lines in two parts is processing the first
    part and then, from the state it leaves, the second; once a line has
    raised, no later line is processed and the state stays the one at the
    exception. *)
Theorem process_app (first rest : list string) (s : CasinoSystem) :
  process (first ++ rest) s
    = match process first s with
      | (inr _, s') => process rest s'
      | (inl e, s') => (inl e, s')
      end.
Proof.
  revert s. induction first as [|t first IH]; intros s; [done|].
  rewrite <- app_comm_cons, !process_cons.
  destruct (dispatch t s) as [[e|[]] s1]; [done | apply IH].
Qed.

(** ** Stripping, splitting and the first token *)

Lemma prefix_of_chars (p : string) (k : list ascii) :
  String.prefix p (string_of_list_ascii (list_ascii_of_string p ++ k)) = true.
Proof.
  induction p as [|a p IH]; simpl;
    [by destruct (string_of_list_ascii k)|].
  by destruct (ascii_dec a a).
Qed.

Lemma lstrip_chars_decompose (l : list ascii) :
  ∃ ws, Forall (λ c, Py.isspace c = true) ws ∧ l = ws ++ Py.lstrip_chars l.
Proof.
  induction l as [|c l (ws & Hws & IH)]; simpl; [by exists []|].
  destruct (Py.isspace c) eqn:Hc.
  - exists (c :: ws). split; [by constructor|]. simpl. by rewrite <- IH.
  - by exists [].
Qed.

Lemma lstrip_chars_snoc (l : list ascii) (c : ascii) :
  Py.isspace c = false →
  Py.lstrip_chars (l ++ [c]) = Py.lstrip_chars l ++ [c].
Proof.
  intros Hc. induction l as [|a l IH]; simpl; [by rewrite Hc|].
  by destruct (Py.isspace a).
Qed.

Lemma lstrip_chars_head (l : list ascii) :
  match Py.lstrip_chars l with
  | [] => True
  | c :: _ => Py.isspace c = false
  end.
Proof.
  induction l as [|a l IH]; simpl; [done|].
  by destruct (Py.isspace a) eqn:Ha; [|simpl].
Qed.

Lemma split_chars_spaces (cur ws : list ascii) :
  Forall (λ c, Py.isspace c = true) ws →
  Py.split_chars cur ws = Py.split_chars cur [].
Proof.
  intros Hws. revert cur. induction Hws as [|c ws Hc _ IH]; intros cur;
    [done|].
  simpl. rewrite Hc. destruct cur; rewrite IH; done.
Qed.

Lemma split_chars_app_spaces (l cur ws : list ascii) :
  Forall (λ c, Py.isspace c = true) ws →
  Py.split_chars cur (l ++ ws) = Py.split_chars cur l.
Proof.
  intros Hws. revert cur. induction l as [|c l IH]; intros cur.
  - by apply split_chars_spaces.
  - simpl. destruct (Py.isspace c); [destruct cur|]; by rewrite IH.
Qed.

Lemma split_chars_lstrip (l : list ascii) :
  Py.split_chars [] (Py.lstrip_chars l) = Py.split_chars [] l.
Proof.
  induction l as [|c l IH]; simpl; [done|].
  destruct (Py.isspace c) eqn:Hc; [done|]. simpl. by rewrite Hc.
Qed.

Lemma strip_chars_decompose (l : list ascii) :
  ∃ ws, Forall (λ c, Py.isspace c = true) ws
        ∧ Py.lstrip_chars l = Py.strip_chars l ++ ws.
Proof.
  unfold Py.strip_chars.
  destruct (lstrip_chars_decompose (reverse (Py.lstrip_chars l)))
    as (ws & Hws & Heq).
  exists (reverse ws). split; [by apply Forall_reverse|].
  rewrite <- reverse_app, <- Heq. by rewrite reverse_involutive.
Qed.

Lemma split_chars_strip (l : list ascii) :
  Py.split_chars [] (Py.strip_chars l) = Py.split_chars [] l.
Proof.
  destruct (strip_chars_decompose l) as (ws & Hws & Heq).
  rewrite <- (split_chars_lstrip l), Heq.
  by rewrite split_chars_app_spaces.
Qed.

Lemma strip_chars_head (l : list ascii) :
  match Py.strip_chars l with
  | [] => True
  | c :: _ => Py.isspace c = false
  end.
Proof.
  unfold Py.strip_chars. pose proof (lstrip_chars_head l) as Hh.
  destruct (Py.lstrip_chars l) as [|c r]; [done|].
  rewrite reverse_cons, (lstrip_chars_snoc _ _ Hh), reverse_snoc. done.
Qed.

Lemma split_chars_first (l cur : list ascii) (tok : string)
    (rest : list string) :
  Py.split_chars cur l = tok :: rest →
  cur ≠ [] ∨ match l with [] => False | c :: _ => Py.isspace c = false end →
  ∃ k, reverse cur ++ l = list_ascii_of_string tok ++ k.
Proof.
  revert cur. induction l as [|c l IH]; intros cur Hs Hc.
  - destruct Hc as [Hc|[]]. simpl in Hs. destruct cur; [done|].
    simplify_eq. exists []. by rewrite list_ascii_of_string_of_list_ascii.
  - simpl in Hs. destruct (Py.isspace c) eqn:Hsp.
    + destruct Hc as [Hc|Hc]; [|done]. destruct cur; [done|].
      simplify_eq. exists (c :: l).
      by rewrite list_ascii_of_string_of_list_ascii.
    + destruct (IH (c :: cur) Hs) as (k & Hk); [by left|].
      exists k. rewrite <- Hk, reverse_cons, <- (assoc_L (++)). done.
Qed.

(** The tokens of a line are the tokens of the stripped line. *)
Lemma split_strip (line : string) : Py.split (Py.strip line) = Py.split line.
Proof.
  unfold Py.split, Py.strip.
  by rewrite list_ascii_of_string_of_list_ascii, split_chars_strip.
Qed.

(** The stripped line starts with its first token. *)
Lemma startswith_first_token (line tok : string) (rest : list string) :
  Py.split line = tok :: rest → Py.startswith (Py.strip line) tok = true.
Proof.
  intros Hs. rewrite <- split_strip in Hs. unfold Py.split, Py.strip in *.
  rewrite list_ascii_of_string_of_list_ascii in Hs.
  pose proof (strip_chars_head (list_ascii_of_string line)) as Hh.
  destruct (split_chars_first _ [] _ _ Hs) as (k & Hk).
  { right. destruct (Py.strip_chars _); [done|apply Hh]. }
  simpl in Hk. rewrite Hk. apply prefix_of_chars.
Qed.

Lemma dispatch_keyword_handler (t keyword : string) :
  keyword ∈ keywords → Py.startswith t keyword = true →
  ∃ handler, handler_of keyword = Some handler ∧ dispatch t = handler t.
Proof.
  intros Hk Hs. pose proof (dispatch_table t) as Ht. cbn zeta in Ht.
  unfold keywords in *. simpl in Ht.
  repeat (apply elem_of_cons in Hk as [->|Hk]);
    try (by apply elem_of_nil in Hk);
    rewrite Hs in Ht;
    destruct Ht as [[? ->]|[[? ->]|[[? ->]|[[? ->]|[[? ->]|[? ->]]]]]];
    simplify_eq; eauto.
Qed.

(** X15.  A line whose first token is one of the five keywords reaches the
    handler of that keyword, whatever whitespace surrounds it, and the
    handler sees the tokens of the line: stripping does not change the
    tokens, the stripped line starts with its first token, and the
    dispatcher therefore calls the keyword's handler on it. *)
Theorem keyword_line_dispatched (line keyword : string)
    (arguments : list string) :
  Py.split line = keyword :: arguments → keyword ∈ keywords →
  Py.split (Py.strip line) = keyword :: arguments
  ∧ Py.startswith (Py.strip line) keyword = true
  ∧ ∃ handler, handler_of keyword = Some handler
               ∧ dispatch (Py.strip line) = handler (Py.strip line).
Proof.
  intros Hs Hk. rewrite split_strip.
  pose proof (startswith_first_token _ _ _ Hs) as Hp.
  split_and!; [done | done |]. by apply dispatch_keyword_handler.
Qed.

Lemma keyword_line_dispatched_witness :
  Py.split (Py.strip "   deposit   u1  40  ") = ["deposit"; "u1"; "40"]
  ∧ Py.startswith (Py.strip "   deposit   u1  40  ") "deposit" = true
  ∧ ∃ handler, handler_of "deposit" = Some handler
               ∧ dispatch (Py.strip "   deposit   u1  40  ")
                 = handler (Py.strip "   deposit   u1  40  ").
Proof.
  apply (keyword_line_dispatched "   deposit   u1  40  " "deposit"
           ["u1"; "40"]); [reflexivity|].
  apply (bool_decide_unpack _). vm_compute. exact I.
Defined.

Lemma process_monotone_witness :
  let s := state_after (process (take 6 two_users_run)) initial in
  let s' := state_after (process (drop 6 two_users_run)) s in
  (is_Some (balances s !! "b") → is_Some (balances s' !! "b"))
  ∧ (∀ d, deposits s !! "b" = Some d →
          ∃ d', deposits s' !! "b" = Some d' ∧ d ≤ d')
  ∧ (∀ sb, slot_bets s !! "b" = Some sb →
           ∃ sb', slot_bets s' !! "b" = Some sb' ∧ sb ≤ sb').
Proof.
  apply (process_monotone (drop 6 two_users_run) "b"
           (state_after (process (take 6 two_users_run)) initial)).
Defined.

(** * Scenarios are assigned in load order *)

(** The evaluator either leaves queue and campaigns alone or gives the
    front of the queue, marked 1, to the user it evaluates, who had no
    campaign. *)
Lemma check_campaign_status_queue (user_id : string) (s : CasinoSystem) :
  (user_campaigns (state_after (check_campaign_status user_id) s)
     = user_campaigns s
   ∧ unused_scenarios (state_after (check_campaign_status user_id) s)
     = unused_scenarios s)
  ∨ ∃ scenario,
      user_campaigns s !! user_id = None
      ∧ unused_scenarios s
        = scenario
          :: unused_scenarios (state_after (check_campaign_status user_id) s)
      ∧ user_campaigns (state_after (check_campaign_status user_id) s)
        = <[user_id := scenario ++ ["1"]]> (user_campaigns s).
Proof.
  destruct (check_campaign_status_outcome user_id s)
    as [(? & ? & _)|(sc & ? & ? & ? & _)]; eauto 10.
Qed.

(** One line either leaves the campaigns alone and appends to the queue
    the scenario it loads, if it loads one, or loads nothing and gives the
    front of the queue, marked 1, to the user its second token names, who
    had no campaign. *)
Lemma dispatch_queue (t : string) (s : CasinoSystem) :
  (user_campaigns (state_after (dispatch t) s) = user_campaigns s
   ∧ unused_scenarios (state_after (dispatch t) s)
     = unused_scenarios s ++ option_list (loaded_scenario t))
  ∨ ∃ user_id scenario,
      Py.split t !! 1%nat = Some user_id
      ∧ loaded_scenario t = None
      ∧ user_campaigns s !! user_id = None
      ∧ unused_scenarios s
        = scenario :: unused_scenarios (state_after (dispatch t) s)
      ∧ user_campaigns (state_after (dispatch t) s)
        = <[user_id := scenario ++ ["1"]]> (user_campaigns s).
Proof.
  unfold loaded_scenario. by_keyword t;
    repeat match goal with H : Py.startswith _ _ = _ |- _ => rewrite H end.
  - left. unfold make_registration. run_handler; by rewrite app_nil_r.
  - left. unfold add_scenario. by_tokens t; run_handler;
      by rewrite ?app_nil_r.
  - unfold make_deposit. by_tokens t; try (left; run_handler; by rewrite app_nil_r).
    run_handler_using check_campaign_status_queue;
      try (left; by rewrite app_nil_r);
      (destruct Heval as [[-> ->]|(sc & ? & ? & ->)];
       [left; by rewrite app_nil_r | right; eauto 10]).
  - unfold make_bet. by_tokens t; try (left; run_handler; by rewrite app_nil_r).
    run_handler_using check_campaign_status_queue;
      try (left; by rewrite app_nil_r);
      (destruct Heval as [[-> ->]|(sc & ? & ? & ->)];
       [left; by rewrite app_nil_r | right; eauto 10]).
  - left. unfold get_balance. run_handler; by rewrite app_nil_r.
  - left. by rewrite app_nil_r.
Qed.

(** The same in terms of the assignment the line makes. *)
Lemma dispatch_assignment (t : string) (s : CasinoSystem) :
  let s' := state_after (dispatch t) s in
  unused_scenarios s ++ option_list (loaded_scenario t)
    = (assigned_by t s).*2 ++ unused_scenarios s'
  ∧ user_campaigns s' = assign_all (assigned_by t s) (user_campaigns s)
  ∧ (∀ user_id scenario, (user_id, scenario) ∈ assigned_by t s →
       user_campaigns s !! user_id = None
       ∧ user_campaigns s' !! user_id = Some (scenario ++ ["1"]))
  ∧ (∀ user_id campaign, user_campaigns s !! user_id = Some campaign →
       user_campaigns s' !! user_id = Some campaign).
Proof.
  cbn zeta. destruct (dispatch_queue t s) as [[Hc Hq]|(u & sc & Ht & Hl & Hu & Hq & Hc)].
  - assert (assigned_by t s = []) as ->.
    { unfold assigned_by. rewrite Hc.
      destruct (Py.split t !! 1%nat) as [u|]; [|done].
      by destruct (user_campaigns s !! u). }
    rewrite Hq, Hc. split_and!; try done. by intros ? ? ?%elem_of_nil.
  - assert (assigned_by t s = [(u, sc)]) as ->.
    { unfold assigned_by.
      by rewrite Ht, Hu, Hc, lookup_insert_eq, scenario_of_marked. }
    rewrite Hl, Hc, app_nil_r. split_and!; try done.
    + intros u' sc' [= -> ->]%list_elem_of_singleton.
      by rewrite lookup_insert_eq.
    + intros u' c Hu'. rewrite lookup_insert_ne; [done | congruence].
Qed.

Lemma process_assignments (transactions : list string) (s : CasinoSystem) :
  let s' := state_after (process transactions) s in
  let assigned := assigned_in transactions s in
  unused_scenarios s ++ loaded_in transactions s
    = assigned.*2 ++ unused_scenarios s'
  ∧ user_campaigns s' = assign_all assigned (user_campaigns s)
  ∧ NoDup assigned.*1
  ∧ (∀ user_id scenario, (user_id, scenario) ∈ assigned →
       user_campaigns s !! user_id = None
       ∧ user_campaigns s' !! user_id = Some (scenario ++ ["1"]))
  ∧ (∀ user_id campaign, user_campaigns s !! user_id = Some campaign →
       user_campaigns s' !! user_id = Some campaign).
Proof.
  unfold state_after. revert s.
  induction transactions as [|t rest IH]; intros s; cbn zeta.
  { simpl. rewrite app_nil_r. split_and!; try done; [constructor|].
    by intros ? ? ?%elem_of_nil. }
  cbn [assigned_in loaded_in]. rewrite process_cons.
  destruct (dispatch_assignment t s) as (Hq & Hc & Ha & Hk).
  unfold state_after in *.
  assert (NoDup (assigned_by t s).*1) as Hnd1.
  { unfold assigned_by, state_after.
    destruct (Py.split t !! 1%nat) as [u|]; [|constructor].
    destruct (user_campaigns s !! u); [constructor|].
    destruct (user_campaigns (dispatch t s).2 !! u); simpl;
      [apply NoDup_singleton | constructor]. }
  destruct (dispatch t s) as [[e|[]] s1]; simpl in *.
  { rewrite !app_nil_r. split_and!; done. }
  destruct (IH s1) as (Hq' & Hc' & Hnd' & Ha' & Hk'). cbn zeta in *.
  split_and!.
  - rewrite fmap_app, <- (assoc_L (++)), <- Hq'.
    rewrite !(assoc_L (++)). by rewrite <- Hq.
  - unfold assign_all in *. by rewrite foldl_app, <- Hc.
  - rewrite fmap_app. apply NoDup_app. split_and!; [done| |done].
    intros u Hu1 Hu2.
    apply list_elem_of_fmap in Hu1 as ([u1 sc1] & -> & Hu1).
    apply list_elem_of_fmap in Hu2 as ([u2 sc2] & Heq & Hu2).
    simpl in Heq. subst u2.
    apply Ha in Hu1 as [_ Hu1]. apply Ha' in Hu2 as [Hu2 _]. congruence.
  - intros u sc [Hin|Hin]%elem_of_app.
    + apply Ha in Hin as [? Hin]. split; [done|]. by apply Hk'.
    + apply Ha' in Hin as [Hn Hin]. split; [|done].
      destruct (user_campaigns s !! u) as [c|] eqn:E; [|done].
      apply Hk in E. congruence.
  - intros u c Hu. by apply Hk', Hk.
Qed.

(** C8.  Scenarios are assigned in load order.  Take any state and process
    any list of lines from it; let [loaded] be the scenarios the
    [addscenario] lines of the run load, in the order of those lines, and
    [assigned] the assignments the run makes, in the order in which it
    makes them.  Then the scenarios assigned, in that order, followed by
    the queue at the end, are the queue at the start followed by [loaded]:
    the k-th assignment of the run receives the k-th scenario of the queue
    as loaded, oldest first, each scenario goes to one user, and what is
    left in the queue is what was not assigned.  No user is assigned twice,
    and only users without a campaign are assigned.  The campaigns at the
    end are the campaigns at the start together with those assignments:
    every campaign held at the start is held unchanged at the end, and
    every assigned user holds at the end the scenario assigned, marked
    1. *)
Theorem scenarios_assigned_fifo (transactions : list string)
    (s : CasinoSystem) :
  let s' := state_after (process transactions) s in
  let assigned := assigned_in transactions s in
  let loaded := loaded_in transactions s in
  unused_scenarios s ++ loaded = assigned.*2 ++ unused_scenarios s'
  ∧ (∀ k user_id scenario, assigned !! k = Some (user_id, scenario) →
       (unused_scenarios s ++ loaded) !! k = Some scenario
       ∧ user_campaigns s !! user_id = None
       ∧ user_campaigns s' !! user_id = Some (scenario ++ ["1"]))
  ∧ NoDup assigned.*1
  ∧ user_campaigns s' = assign_all assigned (user_campaigns s)
  ∧ (∀ user_id campaign, user_campaigns s !! user_id = Some campaign →
       user_campaigns s' !! user_id = Some campaign).
Proof.
  cbn zeta.
  destruct (process_assignments transactions s) as (Hq & Hc & Hnd & Ha & Hk).
  cbn zeta in *. split_and!; try done.
  intros k u sc Hk'. rewrite Hq.
  destruct (Ha u sc) as [? ?]; [by eapply list_elem_of_lookup_2|].
  split_and!; try done.
  rewrite lookup_app_l by (rewrite length_fmap; by eapply lookup_lt_Some).
  by rewrite list_lookup_fmap, Hk'.
Qed.

(** The logs of [two_users_run]: [b] becomes eligible first and receives
    the first scenario loaded, [a] the second; the third stays queued. *)
Example two_users_run_logs :
  loaded_in two_users_run initial
    = [["10"; "20"; "30"]; ["1"; "2"; "3"]; ["7"; "8"; "9"]]
  ∧ assigned_in two_users_run initial
    = [("b", ["10"; "20"; "30"]); ("a", ["1"; "2"; "3"])]
  ∧ unused_scenarios (state_after (process two_users_run) initial)
    = [["7"; "8"; "9"]].
Proof. split_and!; vm_compute; reflexivity. Qed.

(** [int()] and [split()] disagree on the separators FS..US: [split]
    treats them as whitespace, [int()] does not, while both skip NBSP. *)
Example int_keeps_separators :
  Py.int (String (ascii_of_nat 28) "5") = None
  ∧ Py.split (String (ascii_of_nat 28) "5") = ["5"]
  ∧ Py.int (String (ascii_of_nat 160) " 5 ") = Some 5.
Proof. split_and!; vm_compute; reflexivity. Qed.
